(** * Allocation & Consensus Coordinator: TaskDistributor and ConsensusEngine

    A shallow embedding of the auction engine ([TaskDistributor], the
    source file with [submitBid], [scoreBids], [selectOptimalAgents]) and of
    the voting engine ([ConsensusEngine.ts]), followed by the formulas of
    the specification and the theorems that relate the code to them.

    Conventions of the embedding.
    - A JavaScript [number] is a value of [num]: an exact rational, one of
      the two infinities, or NaN.  Division by zero, [Infinity - Infinity],
      comparisons with NaN, [Math.min]/[Math.max] and [x || d] follow
      ECMAScript.  Rounding of doubles and the sign of zero are not
      modelled: a finite result is the exact rational.
    - A JavaScript [Map] that is only looked up by key is a [gmap string _];
      a [Map] that is iterated ([supporters], [rejectors]) is an
      association list in insertion order ([JsMap]).
    - A method is a function on the engine state returning an outcome and
      the state at the point where the method returned or threw.
    - [emit] appends to the log [emitted] of the state.
    - The outcome of calls to the environment ([Date.now()], [uuidv4()],
      the broadcast on the consensus topic, the contract call) is an
      argument of the method.
    - An [async] method runs to its end without another handler in
      between.  Timers are not part of the state: the methods they call
      ([evaluateBidsAndAssign], [evaluateProposal]) are. *)

From Stdlib Require Import QArith Lqa Sorted.
From stdpp Require Import gmap strings list.

#[global] Set Warnings "-clear-no-such-hyp".

Open Scope string_scope.
Open Scope list_scope.

(** ** JavaScript numbers *)

Module Num.

Inductive num : Type :=
| Fin (q : Q)
| PInf
| NInf
| NaN.

Definition of_Z (z : Z) : num := Fin (inject_Z z).
Definition of_nat (n : nat) : num := of_Z (Z.of_nat n).

Definition isNaN (x : num) : bool :=
  match x with NaN => true | _ => false end.

Definition Qltb (a b : Q) : bool := negb (Qle_bool b a).

(** Sign of a rational: [Lt], [Eq] or [Gt] as it is below, at or above 0. *)
Definition Qsign (a : Q) : comparison := (Qnum a ?= 0)%Z.

Definition neg (x : num) : num :=
  match x with
  | Fin a => Fin (- a)
  | PInf => NInf
  | NInf => PInf
  | NaN => NaN
  end.

Definition add (x y : num) : num :=
  match x, y with
  | NaN, _ | _, NaN => NaN
  | Fin a, Fin b => Fin (a + b)
  | PInf, NInf | NInf, PInf => NaN
  | PInf, _ | _, PInf => PInf
  | NInf, _ | _, NInf => NInf
  end.

Definition sub (x y : num) : num := add x (neg y).

(** An infinity of the sign [s]; the product of an infinity and zero is NaN. *)
Definition inf_of_sign (s : comparison) : num :=
  match s with Gt => PInf | Lt => NInf | Eq => NaN end.

Definition flip_sign (s : comparison) : comparison :=
  match s with Gt => Lt | Lt => Gt | Eq => Eq end.

Definition mul (x y : num) : num :=
  match x, y with
  | NaN, _ | _, NaN => NaN
  | Fin a, Fin b => Fin (a * b)
  | PInf, Fin b | Fin b, PInf => inf_of_sign (Qsign b)
  | NInf, Fin b | Fin b, NInf => inf_of_sign (flip_sign (Qsign b))
  | PInf, PInf | NInf, NInf => PInf
  | PInf, NInf | NInf, PInf => NInf
  end.

(** [x / y].  A finite numerator over zero is an infinity of the
    numerator's sign, [0 / 0] is NaN; a finite numerator over an infinity
    is zero; an infinity over a finite denominator keeps or flips its sign
    (the zero denominator counts as positive); an infinity over an infinity
    is NaN. *)
Definition div (x y : num) : num :=
  match x, y with
  | NaN, _ | _, NaN => NaN
  | Fin a, Fin b =>
      match Qsign b with
      | Eq => inf_of_sign (Qsign a)
      | _ => Fin (a / b)
      end
  | Fin _, (PInf | NInf) => Fin 0
  | PInf, Fin b => match Qsign b with Lt => NInf | _ => PInf end
  | NInf, Fin b => match Qsign b with Lt => PInf | _ => NInf end
  | (PInf | NInf), (PInf | NInf) => NaN
  end.

(** [x < y]; false when either side is NaN. *)
Definition lt (x y : num) : bool :=
  match x, y with
  | NaN, _ | _, NaN => false
  | Fin a, Fin b => Qltb a b
  | NInf, (Fin _ | PInf) => true
  | Fin _, PInf => true
  | _, _ => false
  end.

(** [x <= y]; false when either side is NaN. *)
Definition le (x y : num) : bool :=
  match x, y with
  | NaN, _ | _, NaN => false
  | Fin a, Fin b => Qle_bool a b
  | NInf, _ => true
  | _, PInf => true
  | _, _ => false
  end.

Definition gt (x y : num) : bool := lt y x.
Definition ge (x y : num) : bool := le y x.

(** [Math.min(x, y)] and [Math.max(x, y)]: NaN when either argument is. *)
Definition min (x y : num) : num :=
  match x, y with
  | NaN, _ | _, NaN => NaN
  | _, _ => if le x y then x else y
  end.

Definition max (x y : num) : num :=
  match x, y with
  | NaN, _ | _, NaN => NaN
  | _, _ => if le x y then y else x
  end.

(** Truthiness of a number: every number but 0 and NaN. *)
Definition truthy (x : num) : bool :=
  match x with
  | NaN => false
  | Fin a => negb (Qeq_bool a 0)
  | _ => true
  end.

(** [x || d] for an optional number [x]: [undefined], 0 and NaN give [d]. *)
Definition or_default (x : option num) (d : num) : num :=
  match x with
  | Some v => if truthy v then v else d
  | None => d
  end.

(** The integer part (towards zero) of a finite number, as
    [ToIntegerOrInfinity] computes it for [slice]. *)
Definition trunc (q : Q) : Z := Z.quot (Qnum q) (Z.pos (Qden q)).

(** Same value, as a test. *)
Definition eqb (x y : num) : bool :=
  match x, y with
  | Fin a, Fin b => Qeq_bool a b
  | PInf, PInf | NInf, NInf | NaN, NaN => true
  | _, _ => false
  end.

(** Same value: equal rationals, or the same special value. *)
Definition eq (x y : num) : Prop :=
  match x, y with
  | Fin a, Fin b => (a == b)%Q
  | PInf, PInf | NInf, NInf | NaN, NaN => True
  | _, _ => False
  end.

End Num.

Import Num.

Declare Scope num_scope.
Delimit Scope num_scope with num.
Bind Scope num_scope with num.
Infix "+" := Num.add : num_scope.
Infix "-" := Num.sub : num_scope.
Infix "*" := Num.mul : num_scope.
Infix "/" := Num.div : num_scope.

#[global] Instance num_equiv : Equiv num := Num.eq.

(** [Array.prototype.slice(0, end)] on a list: up to the index [end]
    rounded towards zero, counted from the end of the list when it is
    negative. *)
Definition slice0 {A} (l : list A) (e : num) : list A :=
  match e with
  | NaN | NInf => []
  | PInf => l
  | Fin q =>
      let k := Num.trunc q in
      if (k <? 0)%Z then take (Z.to_nat (Z.of_nat (length l) + k)) l
      else take (Z.to_nat k) l
  end.

(** [Array.prototype.sort(cmp)]: the stable sort in which [b] is moved in
    front of [a] only when [cmp a b > 0]; a NaN result of [cmp] counts as 0.
    [sort_insert cmp x l] places [x], which preceded every element of [l] in
    the input, into the sorted [l].  For a comparator that is not a
    consistent order (scores with NaN among numbers) ECMAScript leaves the
    result to the implementation; the model then fixes the result of the
    insertion sort. *)
Fixpoint sort_insert {A} (cmp : A → A → num) (x : A) (l : list A) : list A :=
  match l with
  | [] => [x]
  | y :: l' =>
      if Num.gt (cmp x y) (Fin 0) then y :: sort_insert cmp x l'
      else x :: l
  end.

Definition js_sort {A} (cmp : A → A → num) (l : list A) : list A :=
  foldr (sort_insert cmp) [] l.

(** ** JavaScript [Map] with insertion order *)

Module JsMap.

Definition t (V : Type) : Type := list (string * V).


Definition has {V} (m : t V) (k : string) : bool :=
  bool_decide (k ∈ m.*1).

(** [set] keeps the position of a key already present and appends a new one. *)
Fixpoint set {V} (m : t V) (k : string) (v : V) : t V :=
  match m with
  | [] => [(k, v)]
  | (k', v') :: m' =>
      if bool_decide (k' = k) then (k, v) :: m' else (k', v') :: set m' k v
  end.

Definition values {V} (m : t V) : list V := m.*2.
Definition size {V} (m : t V) : nat := length m.

End JsMap.

(** ** Outcome of a method call *)

Inductive outcome (A : Type) : Type :=
| Returned (a : A)
| Threw (message : string).
Arguments Returned {A} a.
Arguments Threw {A} message.

(** ** The auction engine: [TaskDistributor] *)

Module TaskDistributor.

Inductive Priority : Type := low | medium | high | critical.

Record Task : Type := {
  id : string;
  description : string;
  requiredCapabilities : list string;
  bounty : num;
  deadline : num;
  requester : string;
  minAgents : option num;
  maxAgents : option num;
  priority : option Priority
}.

Record AgentBid : Type := {
  agentId : string;
  taskId : string;
  estimatedTime : num;
  requestedReward : num;
  confidence : num;
  capabilities : list string;
  reputation : num
}.

(** [{ ...bid, score }] *)
Record ScoredBid : Type := {
  bid : AgentBid;
  score : num
}.

Record TaskAssignment : Type := {
  ta_taskId : string;
  assignedAgents : list string;
  totalReward : num;
  ta_deadline : num
}.

Record AgentProfile : Type := {
  accountId : string;
  ap_capabilities : list string;
  ap_reputation : num;
  activeTaskCount : num;
  completedTaskCount : num;
  successRate : num;
  averageCompletionTime : num;
  specializations : option (list string)
}.

Inductive Event : Type :=
| taskAnnounced (task : Task)
| bidSubmitted (b : AgentBid)
| taskAssignmentFailed (tid : string) (reason : string)
| taskAssigned (a : TaskAssignment)
| taskCancelled (tid : string) (reason : string).

Record State : Type := {
  taskQueue : gmap string Task;
  agentBids : gmap string (list AgentBid);
  agentProfiles : gmap string AgentProfile;
  activeAssignments : gmap string TaskAssignment;
  emitted : list Event
}.

Definition initial : State :=
  {| taskQueue := ∅; agentBids := ∅; agentProfiles := ∅;
     activeAssignments := ∅; emitted := [] |}.

(** The private [config] object; no method writes it. *)
Definition reputationWeight : num := Fin 0.4.
Definition confidenceWeight : num := Fin 0.3.
Definition priceWeight : num := Fin 0.3.
Definition capabilityMatchBonus : num := Fin 0.2.

(** The messages of the errors thrown, under the names the specification
    gives them. *)
Definition UnknownTask : string := "Task not found".
Definition DuplicateBid : string := "Agent already submitted a bid".
Definition CapabilityMismatch : string := "Agent lacks required capabilities".
Definition OnChainFailure : string := "Failed to assign task on-chain".

Definition emit (e : Event) (st : State) : State :=
  {| taskQueue := taskQueue st; agentBids := agentBids st;
     agentProfiles := agentProfiles st;
     activeAssignments := activeAssignments st;
     emitted := emitted st ++ [e] |}.

Definition set_taskQueue (q : gmap string Task) (st : State) : State :=
  {| taskQueue := q; agentBids := agentBids st;
     agentProfiles := agentProfiles st;
     activeAssignments := activeAssignments st; emitted := emitted st |}.

Definition set_agentBids (b : gmap string (list AgentBid)) (st : State) : State :=
  {| taskQueue := taskQueue st; agentBids := b;
     agentProfiles := agentProfiles st;
     activeAssignments := activeAssignments st; emitted := emitted st |}.

Definition set_agentProfiles (p : gmap string AgentProfile) (st : State) : State :=
  {| taskQueue := taskQueue st; agentBids := agentBids st;
     agentProfiles := p;
     activeAssignments := activeAssignments st; emitted := emitted st |}.

Definition set_activeAssignments (a : gmap string TaskAssignment) (st : State) : State :=
  {| taskQueue := taskQueue st; agentBids := agentBids st;
     agentProfiles := agentProfiles st;
     activeAssignments := a; emitted := emitted st |}.

(** [announceTask]; the timer it starts calls [evaluateBidsAndAssign] later. *)
Definition announceTask (task : Task) (st : State) : State :=
  emit (taskAnnounced task)
    (set_agentBids (<[id task := []]> (agentBids st))
       (set_taskQueue (<[id task := task]> (taskQueue st)) st)).

Definition validateCapabilities
    (agentCapabilities requiredCapabilities : list string) : bool :=
  let agentCaps : gset string := list_to_set agentCapabilities in
  forallb (λ cap, bool_decide (cap ∈ agentCaps)) requiredCapabilities.

Definition submitBid (b : AgentBid) (st : State) : outcome unit * State :=
  match taskQueue st !! taskId b with
  | None => (Threw UnknownTask, st)
  | Some task =>
      let bids := default [] (agentBids st !! taskId b) in
      match List.find (λ b', bool_decide (agentId b' = agentId b)) bids with
      | Some _ => (Threw DuplicateBid, st)
      | None =>
          let hasRequiredCapabilities :=
            validateCapabilities (capabilities b) (requiredCapabilities task) in
          if negb hasRequiredCapabilities then (Threw CapabilityMismatch, st)
          else
            (Returned tt,
             emit (bidSubmitted b)
               (set_agentBids (<[taskId b := bids ++ [b]]> (agentBids st)) st))
      end
  end.

Definition calculateCapabilityScore
    (agentCapabilities requiredCapabilities : list string) : num :=
  let requiredSet : gset string := list_to_set requiredCapabilities in
  let matchCount :=
    length (List.filter (λ cap, bool_decide (cap ∈ requiredSet)) agentCapabilities) in
  let extraCount := (of_nat (length agentCapabilities) - of_nat matchCount)%num in
  let matchScore := (of_nat matchCount / of_nat (length requiredCapabilities))%num in
  let extraBonus := Num.min (extraCount * Fin 0.05)%num (Fin 0.2) in
  Num.min (matchScore + extraBonus)%num (Fin 1).

(** The body of the [map] callback of [scoreBids]; [now] is the value
    [Date.now()] returns in this call. *)
Definition scoreBid (profiles : gmap string AgentProfile) (task : Task)
    (now : num) (b : AgentBid) : ScoredBid :=
  let score0 := Fin 0 in
  let reputationScore := Num.min (reputation b / Fin 100)%num (Fin 1) in
  let score1 := (score0 + reputationScore * reputationWeight)%num in
  let score2 := (score1 + confidence b * confidenceWeight)%num in
  let priceRatio := (Fin 1 - requestedReward b / bounty task)%num in
  let score3 := (score2 + Num.max (Fin 0) priceRatio * priceWeight)%num in
  let capabilityScore :=
    calculateCapabilityScore (capabilities b) (requiredCapabilities task) in
  let score4 := (score3 + capabilityScore * capabilityMatchBonus)%num in
  let timeScore :=
    Num.max (Fin 0) (Fin 1 - estimatedTime b / (deadline task - now))%num in
  let score5 := (score4 + timeScore * Fin 0.1)%num in
  let score6 :=
    match profiles !! agentId b with
    | Some agentProfile =>
        if Num.gt (activeTaskCount agentProfile) (Fin 3)
        then (score5 * Fin 0.8)%num else score5
    | None => score5
    end in
  {| bid := b; score := score6 |}.

(** [scoreBids]; [clock i] is what [Date.now()] returns while the bid at
    index [i] is scored. *)
Definition scoreBids (profiles : gmap string AgentProfile)
    (clock : nat → num) (bids : list AgentBid) (task : Task) : list ScoredBid :=
  js_sort (λ a b, (score b - score a)%num)
    (imap (λ i b, scoreBid profiles task (clock i) b) bids).

(** The [for] loop of [selectOptimalAgents], from the bids not yet visited,
    the array [selected] and the set [usedCapabilities]; it returns
    [selected] as the loop leaves it. *)
Fixpoint selectLoop (minAgents maxAgents : num) (rest : list ScoredBid)
    (selected : list ScoredBid) (usedCapabilities : gset string)
    : list ScoredBid :=
  match rest with
  | [] => selected
  | b :: rest' =>
      if Num.ge (of_nat (length selected)) maxAgents then selected
      else
        let newCapabilities :=
          List.filter (λ cap, negb (bool_decide (cap ∈ usedCapabilities)))
            (capabilities (bid b)) in
        if Num.lt (of_nat (length selected)) minAgents
           || (0 <? length newCapabilities)%nat
           || Num.gt (score b) (Fin 0.8)
        then selectLoop minAgents maxAgents rest' (selected ++ [b])
               (foldl (λ used cap, {[cap]} ∪ used) usedCapabilities
                  (capabilities (bid b)))
        else selectLoop minAgents maxAgents rest' selected usedCapabilities
  end.

Definition selectOptimalAgents (scoredBids : list ScoredBid)
    (minAgents maxAgents : num) : list ScoredBid :=
  let selected := selectLoop minAgents maxAgents scoredBids [] ∅ in
  if Num.lt (of_nat (length selected)) minAgents
     && Num.ge (of_nat (length scoredBids)) minAgents
  then slice0 scoredBids minAgents
  else selected.

Definition updateAgentTaskCount (aid : string) (delta : num) (st : State) : State :=
  match agentProfiles st !! aid with
  | Some profile =>
      set_agentProfiles
        (<[aid := {| accountId := accountId profile;
                     ap_capabilities := ap_capabilities profile;
                     ap_reputation := ap_reputation profile;
                     activeTaskCount := (activeTaskCount profile + delta)%num;
                     completedTaskCount := completedTaskCount profile;
                     successRate := successRate profile;
                     averageCompletionTime := averageCompletionTime profile;
                     specializations := specializations profile |}]>
           (agentProfiles st)) st
  | None => st
  end.

Definition updateAgentProfile (profile : AgentProfile) (st : State) : State :=
  set_agentProfiles (<[accountId profile := profile]> (agentProfiles st)) st.

(** [profile?.activeTaskCount || 0] *)
Definition getAgentWorkload (aid : string) (st : State) : num :=
  Num.or_default (activeTaskCount <$> agentProfiles st !! aid) (Fin 0).

(** [evaluateBidsAndAssign]. [clock] gives the readings of [Date.now()]
    during scoring and [onChain] tells whether the contract call of
    [assignTaskOnChain] succeeds; when it fails the method throws after the
    assignment was stored.  The method is run to its end without another
    handler in between. *)
Definition evaluateBidsAndAssign (clock : nat → num) (onChain : bool)
    (tid : string) (st : State) : outcome unit * State :=
  match taskQueue st !! tid, agentBids st !! tid with
  | Some task, Some (b0 :: bs) =>
      let bids := b0 :: bs in
      let scoredBids := scoreBids (agentProfiles st) clock bids task in
      let selectedAgents :=
        selectOptimalAgents scoredBids
          (Num.or_default (minAgents task) (Fin 1))
          (Num.or_default (maxAgents task) (Fin 5)) in
      if Nat.eqb (length selectedAgents) 0 then
        (Returned tt,
         emit (taskAssignmentFailed tid "No suitable agents found") st)
      else
        let assignment :=
          {| ta_taskId := tid;
             assignedAgents := (λ sb, agentId (bid sb)) <$> selectedAgents;
             totalReward := bounty task;
             ta_deadline := deadline task |} in
        let st1 :=
          set_activeAssignments (<[tid := assignment]> (activeAssignments st)) st in
        if negb onChain then (Threw OnChainFailure, st1)
        else
          let st2 :=
            foldl (λ s aid, updateAgentTaskCount aid (Fin 1) s) st1
              (assignedAgents assignment) in
          let st3 := emit (taskAssigned assignment) st2 in
          (Returned tt,
           set_agentBids (delete tid (agentBids st3))
             (set_taskQueue (delete tid (taskQueue st3)) st3))
  | _, _ =>
      (Returned tt, emit (taskAssignmentFailed tid "No valid bids received") st)
  end.

Definition cancelTask (tid : string) (reason : string) (st : State) : State :=
  let st1 :=
    set_agentBids (delete tid (agentBids st))
      (set_taskQueue (delete tid (taskQueue st)) st) in
  let st2 :=
    match activeAssignments st1 !! tid with
    | Some assignment =>
        let st' :=
          foldl (λ s aid, updateAgentTaskCount aid (Fin (-1)) s) st1
            (assignedAgents assignment) in
        set_activeAssignments (delete tid (activeAssignments st')) st'
    | None => st1
    end in
  emit (taskCancelled tid reason) st2.

End TaskDistributor.

(** ** The voting engine: [ConsensusEngine] *)

Module ConsensusEngine.

Record Vote : Type := {
  voter : string;
  weight : num;
  timestamp : num;
  reason : option string
}.

Inductive Status : Type := pending | accepted | rejected | expired.

#[global] Instance Status_eq_dec : EqDecision Status.
Proof. solve_decision. Defined.

(** [solution : any] is an opaque payload. *)
Record ConsensusProposal : Type := {
  id : string;
  taskId : string;
  solution : string;
  proposer : string;
  supporters : JsMap.t Vote;
  rejectors : JsMap.t Vote;
  confidence : num;
  p_timestamp : option num;
  deadline : num;
  status : Status
}.

Record ConsensusConfig : Type := {
  votingThreshold : num;
  votingPeriod : num;
  minParticipants : num;
  reputationWeighting : bool
}.

Definition defaultConfig : ConsensusConfig :=
  {| votingThreshold := Fin 0.66;
     votingPeriod := Fin (5 * 60 * 1000);
     minParticipants := Fin 3;
     reputationWeighting := true |}.

Record AgentReputation : Type := {
  accountId : string;
  score : num;
  tasksCompleted : num;
  consensusParticipation : num
}.

(** The result object of [calculateConsensus]. *)
Record ConsensusResult : Type := {
  r_accepted : bool;
  supportPercentage : num;
  totalVotes : nat
}.

(** The fields of a proposal as [broadcastProposal] sends them. *)
Record ProposalData : Type := {
  pd_id : string;
  pd_taskId : string;
  pd_solution : string;
  pd_proposer : string;
  pd_confidence : num;
  pd_deadline : num
}.

(** The fields of a vote as [broadcastVote] sends them. *)
Record VoteData : Type := {
  vd_voter : string;
  vd_support : bool;
  vd_reason : option string
}.

Inductive Event : Type :=
| proposalCreated (p : ConsensusProposal)
| proposalReceived (p : ConsensusProposal)
| voteReceived (pid : string) (v : Vote) (support : bool)
| consensusReached (pid tid : string) (acc : bool) (pct : num)
    (total : nat) (sol : option string)
| reputationUpdated (aid : string) (newScore delta : num).

Record State : Type := {
  proposals : gmap string ConsensusProposal;
  config : ConsensusConfig;
  reputations : gmap string AgentReputation;
  emitted : list Event
}.

Definition initial (cfg : ConsensusConfig) : State :=
  {| proposals := ∅; config := cfg; reputations := ∅; emitted := [] |}.

(** The messages of the errors [voteOnProposal] throws. *)
Definition ProposalNotFound : string := "Proposal not found".
Definition ProposalNotPending : string := "Proposal is no longer pending".
Definition VotingExpired : string := "Voting period has expired".
Definition DuplicateVote : string := "Already voted on this proposal".
(** Stands for whatever the rejected transaction of [broadcastProposal] or
    [broadcastVote] throws. *)
Definition BroadcastFailure : string := "broadcast failed".

Definition emit (e : Event) (st : State) : State :=
  {| proposals := proposals st; config := config st;
     reputations := reputations st; emitted := emitted st ++ [e] |}.

Definition set_proposals (p : gmap string ConsensusProposal) (st : State) : State :=
  {| proposals := p; config := config st;
     reputations := reputations st; emitted := emitted st |}.

Definition set_reputations (r : gmap string AgentReputation) (st : State) : State :=
  {| proposals := proposals st; config := config st;
     reputations := r; emitted := emitted st |}.

Definition set_status (s : Status) (p : ConsensusProposal) : ConsensusProposal :=
  {| id := id p; taskId := taskId p; solution := solution p;
     proposer := proposer p; supporters := supporters p;
     rejectors := rejectors p; confidence := confidence p;
     p_timestamp := p_timestamp p; deadline := deadline p; status := s |}.

Definition set_supporters (m : JsMap.t Vote) (p : ConsensusProposal) : ConsensusProposal :=
  {| id := id p; taskId := taskId p; solution := solution p;
     proposer := proposer p; supporters := m;
     rejectors := rejectors p; confidence := confidence p;
     p_timestamp := p_timestamp p; deadline := deadline p; status := status p |}.

Definition set_rejectors (m : JsMap.t Vote) (p : ConsensusProposal) : ConsensusProposal :=
  {| id := id p; taskId := taskId p; solution := solution p;
     proposer := proposer p; supporters := supporters p;
     rejectors := m; confidence := confidence p;
     p_timestamp := p_timestamp p; deadline := deadline p; status := status p |}.

Definition getAgentWeight (aid : string) (st : State) : num :=
  if negb (reputationWeighting (config st)) then Fin 1
  else
    match reputations st !! aid with
    | None => Fin 50
    | Some reputation => score reputation
    end.

(** [for (const vote of votes.values()) { total += vote.weight }] from 0. *)
Definition sumWeights (votes : JsMap.t Vote) : num :=
  foldl (λ total vote, (total + weight vote)%num) (Fin 0) (JsMap.values votes).

Definition calculateConsensus (cfg : ConsensusConfig) (proposal : ConsensusProposal)
    : ConsensusResult :=
  let supportWeight := sumWeights (supporters proposal) in
  let rejectWeight := sumWeights (rejectors proposal) in
  let totalWeight := (supportWeight + rejectWeight)%num in
  let totalVotes :=
    (JsMap.size (supporters proposal) + JsMap.size (rejectors proposal))%nat in
  if Num.lt (of_nat totalVotes) (minParticipants cfg) then
    {| r_accepted := false; supportPercentage := Fin 0; totalVotes := totalVotes |}
  else
    let supportPercentage :=
      if Num.gt totalWeight (Fin 0) then (supportWeight / totalWeight)%num
      else Fin 0 in
    let accepted := Num.ge supportPercentage (votingThreshold cfg) in
    {| r_accepted := accepted; supportPercentage := supportPercentage;
       totalVotes := totalVotes |}.

Definition adjustReputation (aid : string) (delta : num) (st : State) : State :=
  let reputation :=
    match reputations st !! aid with
    | Some r => r
    | None =>
        {| accountId := aid; score := Fin 100; tasksCompleted := Fin 0;
           consensusParticipation := Fin 0 |}
    end in
  let newScore := Num.max (Fin 0) (Num.min (Fin 200) (score reputation + delta)%num) in
  let reputation' :=
    {| accountId := accountId reputation; score := newScore;
       tasksCompleted := tasksCompleted reputation;
       consensusParticipation := (consensusParticipation reputation + Fin 1)%num |} in
  emit (reputationUpdated aid newScore delta)
    (set_reputations (<[aid := reputation']> (reputations st)) st).

(** [for (const vote of votes) { this.adjustReputation(vote.voter, delta) }] *)
Definition adjustAll (votes : list Vote) (delta : num) (st : State) : State :=
  foldl (λ s vote, adjustReputation (voter vote) delta s) st votes.

Definition updateReputations (proposal : ConsensusProposal) (acc : bool)
    (st : State) : State :=
  let correctVoters := if acc then supporters proposal else rejectors proposal in
  let incorrectVoters := if acc then rejectors proposal else supporters proposal in
  let st1 := adjustAll (JsMap.values correctVoters) (Fin 5) st in
  let st2 := adjustAll (JsMap.values incorrectVoters) (Fin (-2)) st1 in
  if acc then adjustReputation (proposer proposal) (Fin 10) st2 else st2.

Definition evaluateProposal (pid : string) (st : State) : State :=
  match proposals st !! pid with
  | None => st
  | Some proposal =>
      if negb (bool_decide (status proposal = pending)) then st
      else
        let result := calculateConsensus (config st) proposal in
        let proposal' :=
          set_status (if r_accepted result then accepted else rejected) proposal in
        let st1 := set_proposals (<[pid := proposal']> (proposals st)) st in
        let st2 :=
          emit (consensusReached pid (taskId proposal') (r_accepted result)
                  (supportPercentage result) (totalVotes result)
                  (if r_accepted result then Some (solution proposal') else None))
               st1 in
        updateReputations proposal' (r_accepted result) st2
  end.

(** The constant [totalPossibleVoters] of [checkEarlyConsensus]. *)
Definition totalPossibleVoters : num := Fin 10.

(** [worstCaseSupport] as [checkEarlyConsensus] computes it. *)
Definition worstCaseSupport (cfg : ConsensusConfig) (proposal : ConsensusProposal) : num :=
  let result := calculateConsensus cfg proposal in
  let remainingVoters := (totalPossibleVoters - of_nat (totalVotes result))%num in
  let maxPossibleRejectWeight := (remainingVoters * Fin 100)%num in
  let currentSupportWeight := sumWeights (supporters proposal) in
  let currentRejectWeight := sumWeights (rejectors proposal) in
  (currentSupportWeight /
     (currentSupportWeight + currentRejectWeight + maxPossibleRejectWeight))%num.

Definition checkEarlyConsensus (pid : string) (st : State) : State :=
  match proposals st !! pid with
  | None => st
  | Some proposal =>
      if negb (bool_decide (status proposal = pending)) then st
      else if Num.ge (worstCaseSupport (config st) proposal)
                     (votingThreshold (config st))
      then evaluateProposal pid st
      else st
  end.

(** [proposeSolution]. [pid] is the identifier [uuidv4()] returns, [clock 0],
    [clock 1], [clock 2] the three readings of [Date.now()], [sent] whether
    [broadcastProposal] succeeds.  The timer the method starts calls
    [evaluateProposal pid] after the voting period. *)
Definition proposeSolution (pid : string) (clock : nat → num) (sent : bool)
    (tid sol proposerAccount : string) (conf : num) (st : State)
    : outcome string * State :=
  let dl := (clock 0%nat + votingPeriod (config st))%num in
  let proposal :=
    {| id := pid; taskId := tid; solution := sol; proposer := proposerAccount;
       supporters :=
         [(proposerAccount,
           {| voter := proposerAccount;
              weight := getAgentWeight proposerAccount st;
              timestamp := clock 1%nat; reason := None |})];
       rejectors := [];
       confidence := conf; p_timestamp := Some (clock 2%nat);
       deadline := dl; status := pending |} in
  let st1 := set_proposals (<[pid := proposal]> (proposals st)) st in
  if negb sent then (Threw BroadcastFailure, st1)
  else (Returned pid, emit (proposalCreated proposal) st1).

(** The recording of a vote, shared by [voteOnProposal] and
    [handleRemoteVote]: [proposal.supporters.set] or [proposal.rejectors.set]
    on the proposal stored under [pid]. *)
Definition recordVote (pid : string) (proposal : ConsensusProposal)
    (vote : Vote) (support : bool) (st : State) : State :=
  let proposal' :=
    if support
    then set_supporters (JsMap.set (supporters proposal) (voter vote) vote) proposal
    else set_rejectors (JsMap.set (rejectors proposal) (voter vote) vote) proposal in
  set_proposals (<[pid := proposal']> (proposals st)) st.

(** [voteOnProposal]. [now] is the reading of [Date.now()] (the deadline
    check and the vote's timestamp), [sent] whether [broadcastVote]
    succeeds; when it fails the method throws after the vote was
    recorded. *)
Definition voteOnProposal (now : num) (sent : bool) (pid voterAccount : string)
    (support : bool) (why : option string) (st : State) : outcome unit * State :=
  match proposals st !! pid with
  | None => (Threw ProposalNotFound, st)
  | Some proposal =>
      if negb (bool_decide (status proposal = pending))
      then (Threw ProposalNotPending, st)
      else if Num.gt now (deadline proposal) then (Threw VotingExpired, st)
      else if JsMap.has (supporters proposal) voterAccount
              || JsMap.has (rejectors proposal) voterAccount
      then (Threw DuplicateVote, st)
      else
        let vote :=
          {| voter := voterAccount; weight := getAgentWeight voterAccount st;
             timestamp := now; reason := why |} in
        let st1 := recordVote pid proposal vote support st in
        if negb sent then (Threw BroadcastFailure, st1)
        else
          let st2 := checkEarlyConsensus pid st1 in
          (Returned tt, emit (voteReceived pid vote support) st2)
  end.

(** [handleRemoteProposal]; the received data carry no [timestamp]. *)
Definition handleRemoteProposal (now : num) (proposalData : ProposalData)
    (st : State) : State :=
  match proposals st !! pd_id proposalData with
  | Some _ => st
  | None =>
      let proposal :=
        {| id := pd_id proposalData; taskId := pd_taskId proposalData;
           solution := pd_solution proposalData;
           proposer := pd_proposer proposalData;
           supporters :=
             JsMap.set [] (pd_proposer proposalData)
               {| voter := pd_proposer proposalData;
                  weight := getAgentWeight (pd_proposer proposalData) st;
                  timestamp := now; reason := None |};
           rejectors := [];
           confidence := pd_confidence proposalData; p_timestamp := None;
           deadline := pd_deadline proposalData; status := pending |} in
      emit (proposalReceived proposal)
        (set_proposals (<[id proposal := proposal]> (proposals st)) st)
  end.

Definition handleRemoteVote (now : num) (pid : string) (voteData : VoteData)
    (st : State) : State :=
  match proposals st !! pid with
  | None => st
  | Some proposal =>
      if negb (bool_decide (status proposal = pending)) then st
      else if JsMap.has (supporters proposal) (vd_voter voteData)
              || JsMap.has (rejectors proposal) (vd_voter voteData)
      then st
      else
        let vote :=
          {| voter := vd_voter voteData;
             weight := getAgentWeight (vd_voter voteData) st;
             timestamp := now; reason := vd_reason voteData |} in
        let st1 := recordVote pid proposal vote (vd_support voteData) st in
        let st2 := checkEarlyConsensus pid st1 in
        emit (voteReceived pid vote (vd_support voteData)) st2
  end.

Definition loadReputations (reputationData : list AgentReputation) (st : State) : State :=
  set_reputations
    (foldl (λ m rep, <[accountId rep := rep]> m) (reputations st) reputationData)
    st.


End ConsensusEngine.


(** * The formulas of the specification

    Definitions written from the words of the specification; the theorems
    below compare them with the code. *)

Module AuctionSpec.

Import TaskDistributor.

(** The number of capability tags of the bid that the task requires. *)
Definition matchedRequired (caps required : list string) : nat :=
  length (List.filter (λ c, bool_decide (c ∈ required)) caps).

(** The number of capability tags of the bid beyond the required ones. *)
Definition extraCapabilities (caps required : list string) : nat :=
  length (List.filter (λ c, bool_decide (c ∉ required)) caps).

(** [min(matchedRequired/totalRequired + min(0.05·extraCapabilities, 0.2), 1)] *)
Definition capabilityScore (caps required : list string) : num :=
  Num.min
    (of_nat (matchedRequired caps required) / of_nat (length required)
     + Num.min (Fin 0.05 * of_nat (extraCapabilities caps required)) (Fin 0.2))%num
    (Fin 1).

(** [max(0, 1 − estimatedTime/(deadline − now))] *)
Definition timeScore (task : Task) (now : num) (b : AgentBid) : num :=
  Num.max (Fin 0) (Fin 1 - estimatedTime b / (deadline task - now))%num.

(** The weighted sum of the five components. *)
Definition weightedSum (task : Task) (now : num) (b : AgentBid) : num :=
  (Fin 0.4 * Num.min (reputation b / Fin 100) (Fin 1)
   + Fin 0.3 * confidence b
   + Fin 0.3 * Num.max (Fin 0) (Fin 1 - requestedReward b / bounty task)
   + Fin 0.2 * capabilityScore (capabilities b) (requiredCapabilities task)
   + Fin 0.1 * timeScore task now b)%num.

(** The score of a bid: the weighted sum, times 0.8 exactly when the
    bidder's active-task count exceeds 3. *)
Definition bidScore (st : State) (task : Task) (now : num) (b : AgentBid) : num :=
  if Num.gt (getAgentWorkload (agentId b) st) (Fin 3)
  then (weightedSum task now b * Fin 0.8)%num
  else weightedSum task now b.






End AuctionSpec.

Module VotingSpec.

Import ConsensusEngine.

(** The sum of the recorded vote weights of one side. *)
Definition weightSum (votes : JsMap.t Vote) : num :=
  foldr (λ vote total, (weight vote + total)%num) (Fin 0) (JsMap.values votes).

Definition supportWeight (p : ConsensusProposal) : num := weightSum (supporters p).
Definition rejectWeight (p : ConsensusProposal) : num := weightSum (rejectors p).

Definition totalVotes (p : ConsensusProposal) : nat :=
  (length (supporters p) + length (rejectors p))%nat.

(** [supportWeight / (supportWeight + rejectWeight)] *)
Definition supportRatio (p : ConsensusProposal) : num :=
  (supportWeight p / (supportWeight p + rejectWeight p))%num.

(** [supportWeight / (supportWeight + rejectWeight + R·C)] with
    [R = N − totalVotes]. *)
Definition worstCaseSupportRatio (N C : num) (p : ConsensusProposal) : num :=
  let R := (N - of_nat (totalVotes p))%num in
  (supportWeight p / (supportWeight p + rejectWeight p + R * C))%num.

(** Clamping to [0, 200]. *)
Definition clamp (x : num) : num := Num.max (Fin 0) (Num.min (Fin 200) x).

(** [0 ≤ x ≤ 200] *)
Definition in_range (x : num) : Prop :=
  Num.le (Fin 0) x = true ∧ Num.le x (Fin 200) = true.

(** The score a participant has in the ledger; a participant without a
    record counts with the starting score of [adjustReputation]. *)
Definition scoreOf (st : State) (aid : string) : num :=
  match reputations st !! aid with
  | Some r => score r
  | None => Fin 100
  end.


(** A proposal as the engine builds it: every vote is stored under its
    voter, no voter occurs twice in the two maps, and the proposer is a
    supporter. *)
Definition well_formed (p : ConsensusProposal) : Prop :=
  Forall (λ kv, voter kv.2 = kv.1) (supporters p ++ rejectors p)
  ∧ NoDup ((supporters p ++ rejectors p).*1)
  ∧ proposer p ∈ (supporters p).*1.

(** Every proposal of the engine is well formed. *)
Definition proposals_well_formed (st : State) : Prop :=
  ∀ pid p, proposals st !! pid = Some p → well_formed p.

End VotingSpec.

(** * Concrete scenarios *)

Module Scenario.

Import TaskDistributor.

(** The auction scenario of the specification: bounty 100, one to three
    assignees, three bids with reputations 100, 50 and 10, confidences
    0.9, 0.5 and 0.2, the same requested reward 50, exactly the required
    capability, and an estimated time small against the deadline. *)
Definition task1 : Task :=
  {| id := "task-1"; description := "analyse the data set";
     requiredCapabilities := ["analysis"];
     bounty := Fin 100; deadline := Fin 10000; requester := "requester";
     minAgents := Some (Fin 1); maxAgents := Some (Fin 3); priority := None |}.

Definition mkBid (aid : string) (rep conf : num) : AgentBid :=
  {| agentId := aid; taskId := "task-1"; estimatedTime := Fin 100;
     requestedReward := Fin 50; confidence := conf;
     capabilities := ["analysis"]; reputation := rep |}.

Definition bidA : AgentBid := mkBid "A" (Fin 100) (Fin 0.9).
Definition bidB : AgentBid := mkBid "B" (Fin 50) (Fin 0.5).
Definition bidC : AgentBid := mkBid "C" (Fin 10) (Fin 0.2).

Definition clock0 : nat → num := λ _, Fin 0.

(** The engine after the task was announced. *)
Definition announced : State := announceTask task1 initial.

(** The engine after [C], [A] and [B] have bid, in this order. *)
Definition withBids : State :=
  (submitBid bidB (submitBid bidA (submitBid bidC announced).2).2).2.


Definition bidD : AgentBid :=
  {| agentId := "D"; taskId := "task-2"; estimatedTime := Fin 100;
     requestedReward := Fin 50; confidence := Fin 0.9;
     capabilities := ["audit"]; reputation := Fin 100 |}.


(** The engine after the task was cancelled before its evaluation. *)
Definition cancelled : State := cancelTask "task-1" "withdrawn" withBids.

End Scenario.

Module VotingScenario.

Import ConsensusEngine.

Definition rep (aid : string) (s : num) : AgentReputation :=
  {| accountId := aid; score := s; tasksCompleted := Fin 0;
     consensusParticipation := Fin 0 |}.

Definition clock0 : nat → num := λ _, Fin 0.

(** The voting scenario of the specification: at least three participants,
    threshold 0.66; the proposer [P] and the supporter [S] vote with weight
    100, the rejector [R] with weight 50. *)
Definition ledger : State :=
  loadReputations [rep "P" (Fin 100); rep "S" (Fin 100); rep "R" (Fin 50)]
    (initial defaultConfig).

Definition proposed : State :=
  (proposeSolution "p1" clock0 true "task-1" "solution" "P" (Fin 0.9) ledger).2.

Definition voted : State :=
  (voteOnProposal (Fin 20) true "p1" "R" false None
     (voteOnProposal (Fin 10) true "p1" "S" true None proposed).2).2.

(** The engine after the timer of the deadline has fired. *)
Definition finalized : State := evaluateProposal "p1" voted.

(** The same votes by participants whose loaded scores are negative. *)
Definition ledgerNeg : State :=
  loadReputations [rep "P" (Fin (-100)); rep "S" (Fin (-100)); rep "R" (Fin (-50))]
    (initial defaultConfig).

Definition votedNeg : State :=
  (voteOnProposal (Fin 20) true "p1" "R" false None
     (voteOnProposal (Fin 10) true "p1" "S" true None
        (proposeSolution "p1" clock0 true "task-1" "solution" "P" (Fin 0.9)
           ledgerNeg).2).2).2.

(** A threshold of 0 with a quorum of two, and two participants whose
    reputation is 0. *)
Definition zeroConfig : ConsensusConfig :=
  {| votingThreshold := Fin 0; votingPeriod := Fin (5 * 60 * 1000);
     minParticipants := Fin 2; reputationWeighting := true |}.

Definition votedZero : State :=
  (voteOnProposal (Fin 10) true "p1" "S" true None
     (proposeSolution "p1" clock0 true "task-1" "solution" "P" (Fin 0.9)
        (loadReputations [rep "P" (Fin 0); rep "S" (Fin 0)]
           (initial zeroConfig))).2).2.



(** Early termination: the proposer and three supporters have voted with
    weight 200 each, and a fifth supporter of weight 200 votes. *)
Definition strongVoted : State :=
  (voteOnProposal (Fin 30) true "p1" "C" true None
     (voteOnProposal (Fin 20) true "p1" "B" true None
        (voteOnProposal (Fin 10) true "p1" "A" true None
           (proposeSolution "p1" clock0 true "task-1" "solution" "P" (Fin 0.9)
              (loadReputations
                 [rep "P" (Fin 200); rep "A" (Fin 200); rep "B" (Fin 200);
                  rep "C" (Fin 200); rep "D" (Fin 200)]
                 (initial defaultConfig))).2).2).2).2.



End VotingScenario.
(** * Properties of the number model *)

Section NumFacts.

Local Open Scope Q_scope.

Lemma Qsign_spec (a : Q) :
  match Num.Qsign a with Eq => a == 0 | Lt => a < 0 | Gt => 0 < a end.
Proof.
  unfold Num.Qsign, Qeq, Qlt; simpl.
  destruct (Z.compare_spec (Qnum a) 0); lia.
Qed.

Lemma Qsign_comp (a b : Q) : a == b → Num.Qsign a = Num.Qsign b.
Proof.
  intros Hab. pose proof (Qsign_spec a) as Ha. pose proof (Qsign_spec b) as Hb.
  destruct (Num.Qsign a), (Num.Qsign b); try reflexivity; exfalso; lra.
Qed.

Lemma Qltb_lt (a b : Q) : Num.Qltb a b = true ↔ a < b.
Proof.
  unfold Num.Qltb. rewrite negb_true_iff, <- not_true_iff_false, Qle_bool_iff.
  split; [apply Qnot_le_lt | apply Qlt_not_le].
Qed.

Lemma Qltb_comp (a a' b b' : Q) :
  a == a' → b == b' → Num.Qltb a b = Num.Qltb a' b'.
Proof. intros Ha Hb. unfold Num.Qltb. by rewrite Ha, Hb. Qed.

End NumFacts.

#[global] Instance num_equivalence : Equivalence (≡@{num}).
Proof.
  split.
  - intros [a| | |]; unfold equiv, num_equiv; simpl; done.
  - intros [a| | |] [b| | |]; unfold equiv, num_equiv; simpl;
      first [done | intros H; by symmetry].
  - intros [a| | |] [b| | |] [c| | |]; unfold equiv, num_equiv; simpl;
      first [done | intros H1 H2; by rewrite H1].
Qed.

Lemma num_equiv_Fin (a b : Q) : Fin a ≡ Fin b ↔ (a == b)%Q.
Proof. done. Qed.

(** Case analysis on two related numbers. *)
Ltac num_cases H :=
  match type of H with
  | ?x ≡ ?y =>
      destruct x as [?a| | |], y as [?b| | |];
      try (exfalso; exact H); try apply -> num_equiv_Fin in H
  end.

#[global] Instance neg_proper : Proper ((≡) ==> (≡)) Num.neg.
Proof.
  intros x y H. num_cases H; simpl; try done.
  apply num_equiv_Fin. by rewrite H.
Qed.

#[global] Instance add_proper : Proper ((≡) ==> (≡) ==> (≡)) Num.add.
Proof.
  intros x y H x' y' H'. num_cases H; num_cases H'; simpl; try done.
  apply num_equiv_Fin. by rewrite H, H'.
Qed.

#[global] Instance sub_proper : Proper ((≡) ==> (≡) ==> (≡)) Num.sub.
Proof. intros x y H x' y' H'. unfold Num.sub. by rewrite H, H'. Qed.

#[global] Instance mul_proper : Proper ((≡) ==> (≡) ==> (≡)) Num.mul.
Proof.
  intros x y H x' y' H'. num_cases H; num_cases H'; simpl; try done;
    rewrite ?(Qsign_comp _ _ H), ?(Qsign_comp _ _ H'); try done.
  apply num_equiv_Fin. by rewrite H, H'.
Qed.

#[global] Instance div_proper : Proper ((≡) ==> (≡) ==> (≡)) Num.div.
Proof.
  intros x y H x' y' H'. num_cases H; num_cases H'; simpl; try done;
    rewrite ?(Qsign_comp _ _ H), ?(Qsign_comp _ _ H'); try done.
  destruct (Num.Qsign b0); try done; apply num_equiv_Fin; by rewrite H, H'.
Qed.

#[global] Instance le_proper : Proper ((≡) ==> (≡) ==> (=)) Num.le.
Proof.
  intros x y H x' y' H'. num_cases H; num_cases H'; simpl; try done.
  by rewrite H, H'.
Qed.

#[global] Instance lt_proper : Proper ((≡) ==> (≡) ==> (=)) Num.lt.
Proof.
  intros x y H x' y' H'. num_cases H; num_cases H'; simpl; try done.
  by apply Qltb_comp.
Qed.

#[global] Instance gt_proper : Proper ((≡) ==> (≡) ==> (=)) Num.gt.
Proof. intros x y H x' y' H'. unfold Num.gt. by rewrite H, H'. Qed.

#[global] Instance ge_proper : Proper ((≡) ==> (≡) ==> (=)) Num.ge.
Proof. intros x y H x' y' H'. unfold Num.ge. by rewrite H, H'. Qed.

#[global] Instance min_proper : Proper ((≡) ==> (≡) ==> (≡)) Num.min.
Proof.
  intros x y H x' y' H'.
  assert (Num.le x x' = Num.le y y') as Hle by (by rewrite H, H').
  num_cases H; num_cases H'; unfold Num.min; try done;
    rewrite Hle; clear Hle; by destruct (Num.le _ _).
Qed.

#[global] Instance max_proper : Proper ((≡) ==> (≡) ==> (≡)) Num.max.
Proof.
  intros x y H x' y' H'.
  assert (Num.le x x' = Num.le y y') as Hle by (by rewrite H, H').
  num_cases H; num_cases H'; unfold Num.max; try done;
    rewrite Hle; clear Hle; by destruct (Num.le _ _).
Qed.

Lemma add_0_l (x : num) : (Fin 0 + x)%num ≡ x.
Proof. destruct x; simpl; try done. apply Qplus_0_l. Qed.

Lemma add_comm (x y : num) : (x + y)%num ≡ (y + x)%num.
Proof. destruct x, y; simpl; try done. apply Qplus_comm. Qed.

Lemma add_assoc (x y z : num) : (x + (y + z))%num ≡ (x + y + z)%num.
Proof. destruct x, y, z; simpl; try done. apply Qplus_assoc. Qed.

Lemma mul_comm (x y : num) : (x * y)%num ≡ (y * x)%num.
Proof. destruct x, y; simpl; try done. apply Qmult_comm. Qed.

Lemma of_nat_sub (n m : nat) :
  (m ≤ n)%nat → (of_nat n - of_nat m)%num ≡ of_nat (n - m).
Proof.
  intros Hle. unfold of_nat, of_Z, Num.sub; simpl. apply num_equiv_Fin.
  rewrite Nat2Z.inj_sub by done. unfold Z.sub.
  by rewrite inject_Z_plus, inject_Z_opp.
Qed.







(** * The auction engine *)

#[global] Arguments Num.lt : simpl never.
#[global] Arguments Num.le : simpl never.
#[global] Arguments Num.gt : simpl never.
#[global] Arguments Num.ge : simpl never.
#[global] Arguments Num.add : simpl never.
#[global] Arguments Num.sub : simpl never.
#[global] Arguments Num.mul : simpl never.
#[global] Arguments Num.div : simpl never.
#[global] Arguments Num.min : simpl never.
#[global] Arguments Num.max : simpl never.

Section Sorting.

Context {A : Type} (cmp : A → A → num).

Lemma sort_insert_perm (x : A) (l : list A) : sort_insert cmp x l ≡ₚ x :: l.
Proof.
  induction l as [|y l IH]; simpl; [reflexivity|].
  destruct (Num.gt (cmp x y) (Fin 0)); [|reflexivity].
  rewrite IH. apply Permutation_swap.
Qed.

Lemma js_sort_perm (l : list A) : js_sort cmp l ≡ₚ l.
Proof.
  induction l as [|x l IH]; simpl; [reflexivity|].
  unfold js_sort in *; simpl. by rewrite sort_insert_perm, IH.
Qed.

End Sorting.

Section Scoring.

Import TaskDistributor.

Lemma filter_length_split {A} (f : A → bool) (l : list A) :
  (length (List.filter f l) + length (List.filter (λ x, negb (f x)) l))%nat
  = length l.
Proof.
  induction l as [|x l IH]; simpl; [done|].
  destruct (f x); simpl; lia.
Qed.

Lemma filter_ext_bool {A} (f g : A → bool) (l : list A) :
  (∀ x, f x = g x) → List.filter f l = List.filter g l.
Proof.
  intros Hfg. induction l as [|x l IH]; simpl; [done|].
  by rewrite Hfg, IH.
Qed.

Lemma calculateCapabilityScore_spec (caps required : list string) :
  calculateCapabilityScore caps required ≡ AuctionSpec.capabilityScore caps required.
Proof.
  unfold calculateCapabilityScore, AuctionSpec.capabilityScore,
    AuctionSpec.matchedRequired, AuctionSpec.extraCapabilities.
  set (f := λ cap : string, bool_decide (cap ∈ (list_to_set required : gset string))).
  set (g := λ c : string, bool_decide (c ∈ required)).
  assert (Hfg : ∀ x, f x = g x).
  { intros x. unfold f, g. apply bool_decide_ext. set_solver. }
  rewrite (filter_ext_bool f g) by done.
  assert (Hneg : List.filter (λ c : string, bool_decide (c ∉ required)) caps
                 = List.filter (λ c, negb (g c)) caps).
  { apply filter_ext_bool. intros x. unfold g.
    by rewrite bool_decide_not. }
  rewrite Hneg.
  pose proof (filter_length_split g caps) as Hlen.
  rewrite of_nat_sub by lia.
  replace (length caps - length (List.filter g caps))%nat
    with (length (List.filter (λ c, negb (g c)) caps)) by lia.
  by rewrite (mul_comm (Fin 0.05)).
Qed.

Lemma truthy_false_gt (x t : num) :
  Num.truthy x = false → Num.lt (Fin 0) t = true → Num.gt x t = false.
Proof.
  destruct x as [a| | |], t as [b| | |]; unfold Num.gt, Num.lt; simpl; try done.
  rewrite negb_false_iff, Qeq_bool_iff, Qltb_lt. intros Ha Hb.
  apply not_true_iff_false. rewrite Qltb_lt. lra.
Qed.

Lemma workload_gt (st : State) (aid : string) (t : num) :
  Num.lt (Fin 0) t = true →
  Num.gt (getAgentWorkload aid st) t
  = match agentProfiles st !! aid with
    | Some p => Num.gt (activeTaskCount p) t
    | None => false
    end.
Proof.
  intros Ht. unfold getAgentWorkload.
  destruct (agentProfiles st !! aid) as [p|]; simpl.
  - destruct (Num.truthy (activeTaskCount p)) eqn:Htr; [done|].
    rewrite (truthy_false_gt _ _ Htr Ht).
    by apply truthy_false_gt.
  - by apply truthy_false_gt.
Qed.

Lemma scoreBid_spec (st : State) (task : Task) (now : num) (b : AgentBid) :
  bid (scoreBid (agentProfiles st) task now b) = b
  ∧ score (scoreBid (agentProfiles st) task now b)
    ≡ AuctionSpec.bidScore st task now b.
Proof.
  split; [done|].
  unfold scoreBid, AuctionSpec.bidScore; simpl.
  rewrite workload_gt by done.
  set (total := (_ + _ * Fin 0.1)%num).
  assert (Htotal : total ≡ AuctionSpec.weightedSum task now b).
  { unfold total, AuctionSpec.weightedSum, AuctionSpec.timeScore,
      reputationWeight, confidenceWeight, priceWeight, capabilityMatchBonus.
    rewrite add_0_l, calculateCapabilityScore_spec.
    by rewrite !(mul_comm _ (Fin _)). }
  destruct (agentProfiles st !! agentId b) as [p|]; [|done].
  destruct (Num.gt (activeTaskCount p) (Fin 3)); [|done].
  by rewrite Htotal.
Qed.

End Scoring.

(** C3. Every bid is scored, under the reading [now] of the clock, with
    [0.4·min(reputation/100, 1) + 0.3·confidence
     + 0.3·max(0, 1 − requestedReward/bounty) + 0.2·capabilityScore
     + 0.1·timeScore], where [capabilityScore] is
    [min(matchedRequired/totalRequired + min(0.05·extraCapabilities, 0.2), 1)]
    and [timeScore] is [max(0, 1 − estimatedTime/(deadline − now))], and the
    total is multiplied by 0.8 exactly when the bidder's active-task count
    exceeds 3; [scoreBids] returns these scored bids, reordered. *)
Theorem C3_bid_score (st : TaskDistributor.State) (task : TaskDistributor.Task)
    (clock : nat → num) (bids : list TaskDistributor.AgentBid) :
  (∀ now b,
     TaskDistributor.bid
       (TaskDistributor.scoreBid (TaskDistributor.agentProfiles st) task now b) = b
     ∧ TaskDistributor.score
         (TaskDistributor.scoreBid (TaskDistributor.agentProfiles st) task now b)
       ≡ AuctionSpec.bidScore st task now b)
  ∧ TaskDistributor.scoreBids (TaskDistributor.agentProfiles st) clock bids task
    ≡ₚ imap (λ i b,
          TaskDistributor.scoreBid (TaskDistributor.agentProfiles st) task
            (clock i) b) bids.
Proof.
  split.
  - intros now b. apply scoreBid_spec.
  - apply js_sort_perm.
Qed.

Section SortingByKey.

Context {A : Type} (key : A → num).

#[local] Abbreviation cmp := (λ a b : A, (key b - key a)%num).
#[local] Abbreviation R := (λ a b : A, Num.ge (key a) (key b) = true).
#[local] Abbreviation defined := (λ a : A, Num.isNaN (key a) = false).





End SortingByKey.

Section Selection.

Import TaskDistributor.

Context (minAgents maxAgents : num).









End Selection.





Example scenario_bids_recorded :
  TaskDistributor.agentBids Scenario.withBids !! "task-1"
  = Some [Scenario.bidC; Scenario.bidA; Scenario.bidB].
Proof. by vm_compute. Qed.

Example scenario_sorted :
  (λ sb, TaskDistributor.agentId (TaskDistributor.bid sb)) <$>
    TaskDistributor.scoreBids
      (TaskDistributor.agentProfiles Scenario.withBids) Scenario.clock0
      [Scenario.bidC; Scenario.bidA; Scenario.bidB] Scenario.task1
  = ["A"; "B"; "C"].
Proof. by vm_compute. Qed.

Example scenario_scores :
  Forall2 (λ sb s, TaskDistributor.score sb ≡ s)
    (TaskDistributor.scoreBids
       (TaskDistributor.agentProfiles Scenario.withBids) Scenario.clock0
       [Scenario.bidC; Scenario.bidA; Scenario.bidB] Scenario.task1)
    [Fin 1.119; Fin 0.799; Fin 0.549].
Proof. repeat constructor. Qed.

Example scenario_selected :
  (λ sb, TaskDistributor.agentId (TaskDistributor.bid sb)) <$>
    TaskDistributor.selectOptimalAgents
      (TaskDistributor.scoreBids
         (TaskDistributor.agentProfiles Scenario.withBids) Scenario.clock0
         [Scenario.bidC; Scenario.bidA; Scenario.bidB] Scenario.task1)
      (Fin 1) (Fin 3)
  = ["A"].
Proof. by vm_compute. Qed.

Section SubmitBid.

Import TaskDistributor.

Lemma find_agent (aid : string) (bids : list AgentBid) :
  (∃ b', List.find (λ b', bool_decide (agentId b' = aid)) bids = Some b')
  ↔ aid ∈ agentId <$> bids.
Proof.
  induction bids as [|b0 bids IH]; simpl.
  - split; [by intros [? ?]|]. by intros ?%elem_of_nil.
  - rewrite elem_of_cons. case_bool_decide as Hb0.
    + split; [by left|eauto].
    + rewrite IH. split; [by right|]. intros [?|?]; [congruence|done].
Qed.

Lemma find_agent_None (aid : string) (bids : list AgentBid) :
  List.find (λ b', bool_decide (agentId b' = aid)) bids = None
  ↔ aid ∉ agentId <$> bids.
Proof.
  rewrite <- find_agent.
  destruct (List.find _ bids) as [b'|]; split; try done.
  - intros H. exfalso. apply H. eauto.
  - intros _ [? ?]; done.
Qed.

Lemma validateCapabilities_true (caps required : list string) :
  validateCapabilities caps required = true
  ↔ ∀ cap, cap ∈ required → cap ∈ caps.
Proof.
  unfold validateCapabilities. rewrite forallb_forall.
  split; intros H cap Hcap.
  - apply list_elem_of_In, H, bool_decide_eq_true in Hcap. set_solver.
  - apply bool_decide_eq_true. apply list_elem_of_In, H in Hcap. set_solver.
Qed.

Lemma validateCapabilities_false (caps required : list string) :
  validateCapabilities caps required = false
  ↔ ∃ cap, cap ∈ required ∧ cap ∉ caps.
Proof.
  unfold validateCapabilities. induction required as [|r required IH]; simpl.
  - split; [done|]. by intros (cap & ?%elem_of_nil & _).
  - rewrite andb_false_iff, IH, bool_decide_eq_false. split.
    + intros [H|(cap & Hin & Hnot)].
      * exists r. split; [by left|]. set_solver.
      * exists cap. split; [by right|done].
    + intros (cap & [->|Hin]%elem_of_cons & Hnot).
      * left. set_solver.
      * right. eauto.
Qed.

End SubmitBid.

(** C7. [submitBid] throws [UnknownTask] when the task of the bid is not in
    the queue; for a task in the queue it throws [DuplicateBid] when the
    bidder already has a bid for it, otherwise [CapabilityMismatch] when a
    required capability is missing from the bid, and otherwise appends the
    bid to the bids of the task and emits [bidSubmitted].  A bid that lacks
    a required capability is never accepted.  A call that throws leaves the
    engine as it was, and a bid submitted again after it was accepted is
    thrown out with [DuplicateBid]. *)
Theorem C7_submitBid (b : TaskDistributor.AgentBid) (st : TaskDistributor.State) :
  let tid := TaskDistributor.taskId b in
  let bids := default [] (TaskDistributor.agentBids st !! tid) in
  let already := TaskDistributor.agentId b ∈ TaskDistributor.agentId <$> bids in
  (TaskDistributor.taskQueue st !! tid = None →
     TaskDistributor.submitBid b st = (Threw TaskDistributor.UnknownTask, st))
  ∧ (∀ task, TaskDistributor.taskQueue st !! tid = Some task →
       (already →
          TaskDistributor.submitBid b st = (Threw TaskDistributor.DuplicateBid, st))
       ∧ (¬ already →
          (∃ cap, cap ∈ TaskDistributor.requiredCapabilities task
                  ∧ cap ∉ TaskDistributor.capabilities b) →
          TaskDistributor.submitBid b st
          = (Threw TaskDistributor.CapabilityMismatch, st))
       ∧ (¬ already →
          (∀ cap, cap ∈ TaskDistributor.requiredCapabilities task →
                  cap ∈ TaskDistributor.capabilities b) →
          TaskDistributor.submitBid b st
          = (Returned tt,
             TaskDistributor.emit (TaskDistributor.bidSubmitted b)
               (TaskDistributor.set_agentBids
                  (<[tid := bids ++ [b]]> (TaskDistributor.agentBids st)) st))))
  ∧ (∀ task cap, TaskDistributor.taskQueue st !! tid = Some task →
       cap ∈ TaskDistributor.requiredCapabilities task →
       cap ∉ TaskDistributor.capabilities b →
       TaskDistributor.submitBid b st = (Threw TaskDistributor.DuplicateBid, st)
       ∨ TaskDistributor.submitBid b st
         = (Threw TaskDistributor.CapabilityMismatch, st))
  ∧ (∀ msg st', TaskDistributor.submitBid b st = (Threw msg, st') → st' = st)
  ∧ (∀ st', TaskDistributor.submitBid b st = (Returned tt, st') →
       TaskDistributor.agentBids st' !! tid = Some (bids ++ [b])
       ∧ TaskDistributor.emitted st'
         = TaskDistributor.emitted st ++ [TaskDistributor.bidSubmitted b]
       ∧ TaskDistributor.taskQueue st' = TaskDistributor.taskQueue st
       ∧ TaskDistributor.submitBid b st'
         = (Threw TaskDistributor.DuplicateBid, st')).
Proof.
  intros tid bids already. unfold TaskDistributor.submitBid.
  fold tid. fold bids.
  split; [by intros ->|].
  split.
  { intros task ->. split; [|split].
    - intros [b' ->]%find_agent. done.
    - intros ->%find_agent_None Hmiss%validateCapabilities_false.
      by rewrite Hmiss.
    - intros ->%find_agent_None Hall%validateCapabilities_true.
      by rewrite Hall. }
  split.
  { intros task cap -> Hreq Hmiss.
    destruct (List.find _ bids); [by left|right].
    assert (TaskDistributor.validateCapabilities (TaskDistributor.capabilities b)
              (TaskDistributor.requiredCapabilities task) = false) as ->; [|done].
    apply validateCapabilities_false. eauto. }
  split.
  { intros msg st'.
    destruct (TaskDistributor.taskQueue st !! tid); [|congruence].
    destruct (List.find _ bids); [congruence|].
    destruct (TaskDistributor.validateCapabilities _ _); simpl; congruence. }
  intros st'.
  destruct (TaskDistributor.taskQueue st !! tid) as [task|] eqn:Htask; [|done].
  destruct (List.find _ bids) eqn:Hfind; [done|].
  destruct (TaskDistributor.validateCapabilities _ _); simpl; [|done].
  intros [= <-]; simpl. rewrite lookup_insert_eq.
  repeat split; try done.
  rewrite Htask; simpl.
  assert (∃ b', List.find
            (λ b', bool_decide (TaskDistributor.agentId b' = TaskDistributor.agentId b))
            (bids ++ [b]) = Some b') as [b' ->]; [|done].
  apply find_agent. rewrite fmap_app. set_solver.
Qed.

Lemma C7_submitBid_witness :
  TaskDistributor.agentBids
    (TaskDistributor.submitBid Scenario.bidC Scenario.announced).2 !! "task-1"
  = Some ([] ++ [Scenario.bidC])
  ∧ TaskDistributor.submitBid Scenario.bidB Scenario.withBids
    = (Threw TaskDistributor.DuplicateBid, Scenario.withBids)
  ∧ TaskDistributor.submitBid Scenario.bidD Scenario.withBids
    = (Threw TaskDistributor.UnknownTask, Scenario.withBids).
Proof.
  split; [|split].
  - apply (C7_submitBid Scenario.bidC Scenario.announced). reflexivity.
  - apply (proj1 (proj2 (C7_submitBid Scenario.bidB Scenario.withBids))
             Scenario.task1); [reflexivity|].
    apply (bool_decide_unpack _). vm_compute. exact I.
  - apply (C7_submitBid Scenario.bidD Scenario.withBids). reflexivity.
Defined.

Section CapabilityOfValidBids.

Import TaskDistributor.

Local Open Scope Q_scope.

Lemma matchCount_ge (caps required : list string) :
  (∀ cap, cap ∈ required → cap ∈ caps) → NoDup required →
  (length required ≤ AuctionSpec.matchedRequired caps required)%nat.
Proof.
  intros Hall Hnd. unfold AuctionSpec.matchedRequired.
  apply submseteq_length, NoDup_submseteq; [done|].
  intros cap Hcap. apply list_elem_of_In, filter_In. split.
  - by apply list_elem_of_In, Hall.
  - by apply bool_decide_eq_true.
Qed.

Lemma ratio_ge_1 (m n : nat) :
  (0 < n ≤ m)%nat → 1 <= inject_Z (Z.of_nat m) / inject_Z (Z.of_nat n).
Proof.
  intros [Hn Hm].
  assert (0 < inject_Z (Z.of_nat n)) as Hpos.
  { change 0 with (inject_Z 0). rewrite <- Zlt_Qlt. lia. }
  apply Qle_shift_div_l; [done|]. rewrite Qmult_1_l, <- Zle_Qle. lia.
Qed.

(** A bid that passed [validateCapabilities] on a task with a non-empty
    list of distinct required capabilities has the capability score 1,
    however the matched and the extra tags are counted. *)
Lemma capabilityScore_of_valid_bid (caps required : list string) :
  validateCapabilities caps required = true →
  NoDup required → required ≠ [] →
  calculateCapabilityScore caps required ≡ Fin 1.
Proof.
  intros Hall Hnd Hne.
  pose proof (proj1 (validateCapabilities_true caps required) Hall) as Hall'.
  clear Hall. rename Hall' into Hall.
  rewrite calculateCapabilityScore_spec. unfold AuctionSpec.capabilityScore.
  pose proof (matchCount_ge caps required Hall Hnd) as Hm.
  assert (0 < length required)%nat as Hn by (destruct required; simpl; [done|lia]).
  pose proof (ratio_ge_1 _ _ (conj Hn Hm)) as Hr.
  set (m := AuctionSpec.matchedRequired caps required) in *.
  set (e := AuctionSpec.extraCapabilities caps required).
  assert (0 <= inject_Z (Z.of_nat e)) as He.
  { change 0 with (inject_Z 0). rewrite <- Zle_Qle. lia. }
  unfold of_nat, of_Z, Num.div.
  assert (Num.Qsign (inject_Z (Z.of_nat (length required))) = Gt) as ->.
  { unfold Num.Qsign; simpl. apply Z.compare_gt_iff. lia. }
  unfold Num.mul, Num.min at 2, Num.le.
  destruct (Qle_bool (0.05 * inject_Z (Z.of_nat e)) 0.2) eqn:Hb;
    unfold Num.add, Num.min, Num.le.
  - destruct (Qle_bool _ 1) eqn:Hle; [|done].
    apply Qle_bool_iff in Hle. apply num_equiv_Fin. lra.
  - destruct (Qle_bool _ 1) eqn:Hle; [|done].
    apply Qle_bool_iff in Hle. apply num_equiv_Fin. lra.
Qed.

End CapabilityOfValidBids.

Section Evaluate.

Import TaskDistributor.

Lemma updateAgentTaskCount_frame (aid : string) (delta : num) (st : State) :
  taskQueue (updateAgentTaskCount aid delta st) = taskQueue st
  ∧ agentBids (updateAgentTaskCount aid delta st) = agentBids st
  ∧ activeAssignments (updateAgentTaskCount aid delta st) = activeAssignments st
  ∧ emitted (updateAgentTaskCount aid delta st) = emitted st.
Proof.
  unfold updateAgentTaskCount. by destruct (agentProfiles st !! aid).
Qed.

Lemma updateAll_frame (delta : num) (aids : list string) (st : State) :
  let st' := foldl (λ s aid, updateAgentTaskCount aid delta s) st aids in
  taskQueue st' = taskQueue st
  ∧ agentBids st' = agentBids st
  ∧ activeAssignments st' = activeAssignments st
  ∧ emitted st' = emitted st.
Proof.
  revert st. induction aids as [|aid aids IH]; intros st; simpl; [done|].
  destruct (IH (updateAgentTaskCount aid delta st)) as (-> & -> & -> & ->).
  apply updateAgentTaskCount_frame.
Qed.

Lemma cancelTask_removes (tid reason : string) (st : State) :
  taskQueue (cancelTask tid reason st) !! tid = None.
Proof.
  unfold cancelTask; simpl.
  destruct (activeAssignments st !! tid) as [a|]; simpl.
  - pose proof (updateAll_frame (Fin (-1)) (assignedAgents a)
      (set_agentBids (delete tid (agentBids st))
         (set_taskQueue (delete tid (taskQueue st)) st))) as (-> & _).
    apply lookup_delete_eq.
  - apply lookup_delete_eq.
Qed.

Lemma evaluate_unknown (clock : nat → num) (onChain : bool) (tid : string)
    (st : State) :
  taskQueue st !! tid = None →
  evaluateBidsAndAssign clock onChain tid st
  = (Returned tt, emit (taskAssignmentFailed tid "No valid bids received") st).
Proof. intros H. unfold evaluateBidsAndAssign. by rewrite H. Qed.






End Evaluate.

(** C9, as the code has it. [evaluateBidsAndAssign] on a task that is not in
    the open queue (for example after [cancelTask] removed it) emits one
    [taskAssignmentFailed] event with the reason 'No valid bids received'
    and changes nothing else: no assignment is created, and the queue, the
    bids, the assignments and the profiles are as before. *)
Theorem C9_evaluate_absent_task (clock : nat → num) (onChain : bool)
    (tid : string) (st : TaskDistributor.State) :
  (TaskDistributor.taskQueue st !! tid = None →
     let res := TaskDistributor.evaluateBidsAndAssign clock onChain tid st in
     res.1 = Returned tt
     ∧ TaskDistributor.emitted res.2
       = TaskDistributor.emitted st
         ++ [TaskDistributor.taskAssignmentFailed tid "No valid bids received"]
     ∧ TaskDistributor.taskQueue res.2 = TaskDistributor.taskQueue st
     ∧ TaskDistributor.agentBids res.2 = TaskDistributor.agentBids st
     ∧ TaskDistributor.agentProfiles res.2 = TaskDistributor.agentProfiles st
     ∧ TaskDistributor.activeAssignments res.2
       = TaskDistributor.activeAssignments st)
  ∧ (∀ reason,
       let st' := TaskDistributor.cancelTask tid reason st in
       TaskDistributor.evaluateBidsAndAssign clock onChain tid st'
       = (Returned tt,
          TaskDistributor.emit
            (TaskDistributor.taskAssignmentFailed tid "No valid bids received")
            st')).
Proof.
  split.
  - intros Hnone. by rewrite evaluate_unknown.
  - intros reason st'. apply evaluate_unknown, cancelTask_removes.
Qed.

Lemma C9_evaluate_absent_task_witness :
  TaskDistributor.emitted
    (TaskDistributor.evaluateBidsAndAssign Scenario.clock0 true "task-1"
       Scenario.cancelled).2
  = TaskDistributor.emitted Scenario.cancelled
    ++ [TaskDistributor.taskAssignmentFailed "task-1" "No valid bids received"].
Proof.
  apply (C9_evaluate_absent_task Scenario.clock0 true "task-1" Scenario.cancelled).
  reflexivity.
Defined.

(** C9 as stated fails: the evaluation of a cancelled task emits an event. *)
Lemma C9_counterexample :
  TaskDistributor.taskQueue Scenario.cancelled !! "task-1" = None
  ∧ TaskDistributor.emitted
      (TaskDistributor.evaluateBidsAndAssign Scenario.clock0 true "task-1"
         Scenario.cancelled).2
    ≠ TaskDistributor.emitted Scenario.cancelled.
Proof.
  split; [reflexivity|].
  intros H. apply (f_equal length) in H. vm_compute in H. discriminate.
Qed.




Example scenario_assignment :
  TaskDistributor.assignedAgents <$>
    (TaskDistributor.activeAssignments
       (TaskDistributor.evaluateBidsAndAssign Scenario.clock0 true "task-1"
          Scenario.withBids).2 !! "task-1")
  = Some ["A"].
Proof. reflexivity. Qed.

(** * The voting engine *)

Section Weights.

Import ConsensusEngine.

Lemma add_0_r (x : num) : (x + Fin 0)%num ≡ x.
Proof. by rewrite add_comm, add_0_l. Qed.

Lemma foldl_weights (acc : num) (votes : list Vote) :
  foldl (λ total vote, (total + weight vote)%num) acc votes
  ≡ (acc + foldr (λ vote total, (weight vote + total)%num) (Fin 0) votes)%num.
Proof.
  revert acc. induction votes as [|v votes IH]; intros acc; simpl.
  - by rewrite add_0_r.
  - by rewrite IH, add_assoc.
Qed.

Lemma sumWeights_spec (votes : JsMap.t Vote) :
  sumWeights votes ≡ VotingSpec.weightSum votes.
Proof.
  unfold sumWeights, VotingSpec.weightSum. by rewrite foldl_weights, add_0_l.
Qed.

End Weights.

Example scenario_tally :
  ∃ p, ConsensusEngine.proposals VotingScenario.voted !! "p1" = Some p
       ∧ ConsensusEngine.status p = ConsensusEngine.pending
       ∧ ConsensusEngine.sumWeights (ConsensusEngine.supporters p) = Fin 200
       ∧ ConsensusEngine.sumWeights (ConsensusEngine.rejectors p) = Fin 50
       ∧ ConsensusEngine.supportPercentage
           (ConsensusEngine.calculateConsensus ConsensusEngine.defaultConfig p)
         ≡ Fin 0.8
       ∧ ConsensusEngine.r_accepted
           (ConsensusEngine.calculateConsensus ConsensusEngine.defaultConfig p)
         = true.
Proof. eexists. repeat split; reflexivity. Qed.

Section Tally.

Import ConsensusEngine.

Lemma le_0_add (x y : num) :
  Num.le (Fin 0) x = true → Num.le (Fin 0) y = true →
  Num.le (Fin 0) (x + y)%num = true.
Proof.
  destruct x as [a| | |], y as [b| | |]; unfold Num.le, Num.add; try done.
  rewrite !Qle_bool_iff. intros; lra.
Qed.

Lemma le_0_weightSum (votes : JsMap.t Vote) :
  Forall (λ v, Num.le (Fin 0) (weight v) = true) (JsMap.values votes) →
  Num.le (Fin 0) (VotingSpec.weightSum votes) = true.
Proof.
  unfold VotingSpec.weightSum. induction 1 as [|v l Hv Hl IH]; simpl; [done|].
  by apply le_0_add.
Qed.

(** With weights that are not negative and a positive threshold, the
    guard of [calculateConsensus] on the total weight does not change the
    result of the ratio test. *)
Lemma guarded_ratio (s j thr : num) :
  Num.le (Fin 0) s = true → Num.le (Fin 0) j = true →
  Num.lt (Fin 0) thr = true →
  Num.ge (if Num.gt (s + j)%num (Fin 0) then (s / (s + j))%num else Fin 0) thr
  = Num.ge (s / (s + j))%num thr.
Proof.
  intros Hs Hj Hthr.
  destruct (Num.gt (s + j)%num (Fin 0)) eqn:Hgt; [done|].
  assert (Num.ge (Fin 0) thr = false) as ->.
  { destruct thr as [t| | |]; unfold Num.ge, Num.le, Num.lt in *; try done.
    apply Qltb_lt in Hthr. rewrite <- not_true_iff_false, Qle_bool_iff. lra. }
  destruct s as [a| | |], j as [b| | |];
    unfold Num.le, Num.gt, Num.lt, Num.add in *; try done.
  apply Qle_bool_iff in Hs, Hj.
  rewrite <- not_true_iff_false, Qltb_lt in Hgt.
  assert (a == 0)%Q as Ha by lra. assert (a + b == 0)%Q as Hab by lra.
  unfold Num.div.
  rewrite (Qsign_comp _ _ Hab), (Qsign_comp _ _ Ha). by destruct thr.
Qed.

End Tally.

(** C1, as the code has it. With fewer votes than [minParticipants] the
    proposal is not accepted, whatever the weights.  Otherwise it is
    accepted iff the support percentage reaches [votingThreshold], where the
    support percentage is [supportWeight / (supportWeight + rejectWeight)]
    when that total weight is positive and 0 when it is not; the weights
    are the sums of the recorded supporter and rejector vote weights.  When
    no weight is negative and the threshold is positive this is the test
    [supportWeight / (supportWeight + rejectWeight) >= votingThreshold]. *)
Theorem C1_tally (cfg : ConsensusEngine.ConsensusConfig)
    (p : ConsensusEngine.ConsensusProposal) :
  let result := ConsensusEngine.calculateConsensus cfg p in
  let s := VotingSpec.supportWeight p in
  let j := VotingSpec.rejectWeight p in
  let quorum :=
    negb (Num.lt (of_nat (VotingSpec.totalVotes p))
            (ConsensusEngine.minParticipants cfg)) in
  ConsensusEngine.totalVotes result = VotingSpec.totalVotes p
  ∧ (quorum = false → ConsensusEngine.r_accepted result = false)
  ∧ (quorum = true → Num.gt (s + j)%num (Fin 0) = true →
     ConsensusEngine.r_accepted result
     = Num.ge (s / (s + j))%num (ConsensusEngine.votingThreshold cfg))
  ∧ (quorum = true → Num.gt (s + j)%num (Fin 0) = false →
     ConsensusEngine.r_accepted result
     = Num.ge (Fin 0) (ConsensusEngine.votingThreshold cfg))
  ∧ (quorum = true →
     Forall (λ v, Num.le (Fin 0) (ConsensusEngine.weight v) = true)
       (JsMap.values (ConsensusEngine.supporters p)
        ++ JsMap.values (ConsensusEngine.rejectors p)) →
     Num.lt (Fin 0) (ConsensusEngine.votingThreshold cfg) = true →
     ConsensusEngine.r_accepted result
     = Num.ge (VotingSpec.supportRatio p) (ConsensusEngine.votingThreshold cfg)).
Proof.
  intros result s j quorum.
  assert (Hres : result
    = if Num.lt (of_nat (VotingSpec.totalVotes p))
           (ConsensusEngine.minParticipants cfg)
      then {| ConsensusEngine.r_accepted := false;
              ConsensusEngine.supportPercentage := Fin 0;
              ConsensusEngine.totalVotes := VotingSpec.totalVotes p |}
      else
        let pct :=
          if Num.gt (ConsensusEngine.sumWeights (ConsensusEngine.supporters p)
                     + ConsensusEngine.sumWeights (ConsensusEngine.rejectors p))%num
               (Fin 0)
          then (ConsensusEngine.sumWeights (ConsensusEngine.supporters p)
                / (ConsensusEngine.sumWeights (ConsensusEngine.supporters p)
                   + ConsensusEngine.sumWeights (ConsensusEngine.rejectors p)))%num
          else Fin 0 in
        {| ConsensusEngine.r_accepted :=
             Num.ge pct (ConsensusEngine.votingThreshold cfg);
           ConsensusEngine.supportPercentage := pct;
           ConsensusEngine.totalVotes := VotingSpec.totalVotes p |}) by done.
  assert (Hs : ConsensusEngine.sumWeights (ConsensusEngine.supporters p) ≡ s)
    by apply sumWeights_spec.
  assert (Hj : ConsensusEngine.sumWeights (ConsensusEngine.rejectors p) ≡ j)
    by apply sumWeights_spec.
  rewrite Hres. unfold quorum.
  destruct (Num.lt _ (ConsensusEngine.minParticipants cfg)); cbn [negb].
  { repeat split; done. }
  cbn zeta. cbn [ConsensusEngine.r_accepted ConsensusEngine.totalVotes].
  assert (Hcode :
    Num.ge
      (if Num.gt (ConsensusEngine.sumWeights (ConsensusEngine.supporters p)
                  + ConsensusEngine.sumWeights (ConsensusEngine.rejectors p))%num
            (Fin 0)
       then (ConsensusEngine.sumWeights (ConsensusEngine.supporters p)
             / (ConsensusEngine.sumWeights (ConsensusEngine.supporters p)
                + ConsensusEngine.sumWeights (ConsensusEngine.rejectors p)))%num
       else Fin 0) (ConsensusEngine.votingThreshold cfg)
    = Num.ge (if Num.gt (s + j)%num (Fin 0) then (s / (s + j))%num else Fin 0)
        (ConsensusEngine.votingThreshold cfg)).
  { rewrite Hs, Hj. destruct (Num.gt (s + j)%num (Fin 0)); [|done].
    by rewrite Hs, Hj. }
  rewrite Hcode.
  split; [done|]. split; [done|].
  split; [by intros _ ->|]. split; [by intros _ ->|].
  intros _ Hw Hthr. apply Forall_app in Hw as [Hws Hwj].
  apply guarded_ratio; [by apply le_0_weightSum..|done].
Qed.

Lemma C1_tally_witness :
  ∃ p, ConsensusEngine.proposals VotingScenario.voted !! "p1" = Some p
       ∧ ConsensusEngine.r_accepted
           (ConsensusEngine.calculateConsensus ConsensusEngine.defaultConfig p)
         = Num.ge (VotingSpec.supportRatio p) (Fin 0.66).
Proof.
  eexists. split; [reflexivity|].
  apply (C1_tally ConsensusEngine.defaultConfig); [reflexivity| |reflexivity].
  repeat constructor.
Defined.

(** C1 as stated fails on the guard for a total weight that is not
    positive.  With a threshold of 0 and two votes of weight 0 the proposal
    is accepted although [0 / 0] is not at least the threshold; with loaded
    scores of -100, -100 and -50 the proposal is rejected although the
    ratio [-200 / -250] is at least 0.66. *)
Lemma C1_counterexample :
  (∃ p, ConsensusEngine.proposals VotingScenario.votedZero !! "p1" = Some p
        ∧ Num.lt (of_nat (VotingSpec.totalVotes p))
            (ConsensusEngine.minParticipants VotingScenario.zeroConfig) = false
        ∧ ConsensusEngine.status p = ConsensusEngine.accepted
        ∧ ConsensusEngine.r_accepted
            (ConsensusEngine.calculateConsensus VotingScenario.zeroConfig p) = true
        ∧ Num.ge (VotingSpec.supportRatio p)
            (ConsensusEngine.votingThreshold VotingScenario.zeroConfig) = false)
  ∧ (∃ p, ConsensusEngine.proposals VotingScenario.votedNeg !! "p1" = Some p
          ∧ Num.lt (of_nat (VotingSpec.totalVotes p))
              (ConsensusEngine.minParticipants ConsensusEngine.defaultConfig) = false
          ∧ ConsensusEngine.r_accepted
              (ConsensusEngine.calculateConsensus ConsensusEngine.defaultConfig p)
            = false
          ∧ (∃ p', ConsensusEngine.proposals
                     (ConsensusEngine.evaluateProposal "p1" VotingScenario.votedNeg)
                   !! "p1" = Some p'
                   ∧ ConsensusEngine.status p' = ConsensusEngine.rejected)
          ∧ VotingSpec.supportRatio p ≡ Fin 0.8
          ∧ Num.ge (VotingSpec.supportRatio p)
              (ConsensusEngine.votingThreshold ConsensusEngine.defaultConfig) = true).
Proof.
  split.
  - eexists. split; [reflexivity|]. repeat split; reflexivity.
  - eexists. split; [reflexivity|]. repeat split; try reflexivity.
    eexists. split; reflexivity.
Qed.

Section Reputation.

Import ConsensusEngine.

Lemma clamp_in_range (x : num) :
  Num.isNaN x = false → VotingSpec.in_range (VotingSpec.clamp x).
Proof.
  unfold VotingSpec.in_range, VotingSpec.clamp, Num.max, Num.min, Num.le.
  destruct x as [a| | |]; try done. intros _.
  destruct (Qle_bool 200 a) eqn:H1; simpl.
  - done.
  - destruct (Qle_bool 0 a) eqn:H2; [|done].
    rewrite H2. split; [done|].
    apply Qle_bool_iff. rewrite <- not_true_iff_false, Qle_bool_iff in H1. lra.
Qed.

Lemma in_range_add_defined (x : num) (d : Q) :
  VotingSpec.in_range x → Num.isNaN (x + Fin d)%num = false.
Proof. destruct x; unfold VotingSpec.in_range, Num.le; simpl; by intros [? ?]. Qed.

Lemma adjustReputation_frame (aid : string) (delta : num) (st : State) :
  proposals (adjustReputation aid delta st) = proposals st
  ∧ config (adjustReputation aid delta st) = config st.
Proof. done. Qed.

Lemma adjustReputation_lookup (aid : string) (delta : num) (st : State) :
  ∃ r, reputations (adjustReputation aid delta st) !! aid = Some r
       ∧ score r = VotingSpec.clamp (VotingSpec.scoreOf st aid + delta)%num.
Proof.
  unfold adjustReputation, VotingSpec.scoreOf; simpl.
  rewrite lookup_insert_eq. eexists; split; [done|]. simpl.
  by destruct (reputations st !! aid).
Qed.

Lemma adjustReputation_lookup_ne (aid aid' : string) (delta : num) (st : State) :
  aid ≠ aid' →
  reputations (adjustReputation aid delta st) !! aid' = reputations st !! aid'.
Proof. intros Hne. unfold adjustReputation; simpl. by rewrite lookup_insert_ne. Qed.

Lemma scoreOf_adjust (aid : string) (delta : num) (st : State) :
  VotingSpec.scoreOf (adjustReputation aid delta st) aid
  = VotingSpec.clamp (VotingSpec.scoreOf st aid + delta)%num.
Proof.
  destruct (adjustReputation_lookup aid delta st) as (r & Hr & Hs).
  unfold VotingSpec.scoreOf at 1. by rewrite Hr.
Qed.

Lemma scoreOf_adjust_ne (aid aid' : string) (delta : num) (st : State) :
  aid ≠ aid' →
  VotingSpec.scoreOf (adjustReputation aid delta st) aid' = VotingSpec.scoreOf st aid'.
Proof.
  intros Hne. unfold VotingSpec.scoreOf.
  by rewrite adjustReputation_lookup_ne.
Qed.

Lemma adjustAll_frame (l : list Vote) (delta : num) (st : State) :
  proposals (adjustAll l delta st) = proposals st
  ∧ config (adjustAll l delta st) = config st.
Proof.
  revert st. induction l as [|v l IH]; intros st; simpl; [done|].
  destruct (IH (adjustReputation (voter v) delta st)) as [-> ->]. done.
Qed.

Lemma scoreOf_adjustAll_other (l : list Vote) (delta : num) (st : State)
    (aid : string) :
  aid ∉ voter <$> l →
  VotingSpec.scoreOf (adjustAll l delta st) aid = VotingSpec.scoreOf st aid.
Proof.
  revert st. induction l as [|v l IH]; intros st Hnot; simpl; [done|].
  rewrite fmap_cons, not_elem_of_cons in Hnot. destruct Hnot as [Hne Hnot].
  rewrite IH by done. by apply scoreOf_adjust_ne.
Qed.

Lemma scoreOf_adjustAll (l : list Vote) (delta : num) (st : State)
    (aid : string) :
  NoDup (voter <$> l) → aid ∈ voter <$> l →
  VotingSpec.scoreOf (adjustAll l delta st) aid
  = VotingSpec.clamp (VotingSpec.scoreOf st aid + delta)%num.
Proof.
  revert st. induction l as [|v l IH]; intros st Hnd Hin; simpl.
  - by apply elem_of_nil in Hin.
  - rewrite fmap_cons in Hnd, Hin. apply NoDup_cons in Hnd as [Hv Hnd].
    apply elem_of_cons in Hin as [->|Hin].
    + rewrite (scoreOf_adjustAll_other l) by done. apply scoreOf_adjust.
    + rewrite IH by done. rewrite scoreOf_adjust_ne; [done|].
      intros Heq. by rewrite Heq in Hv.
Qed.

Lemma updateReputations_frame (p : ConsensusProposal) (acc : bool) (st : State) :
  proposals (updateReputations p acc st) = proposals st
  ∧ config (updateReputations p acc st) = config st.
Proof.
  unfold updateReputations.
  destruct acc; cbn [proposals config adjustReputation emit set_reputations];
    by rewrite !(proj1 (adjustAll_frame _ _ _)), !(proj2 (adjustAll_frame _ _ _)).
Qed.









End Reputation.

Section Finalize.

Import ConsensusEngine.

Lemma voters_keys (m : JsMap.t Vote) :
  Forall (λ kv, voter kv.2 = kv.1) m → voter <$> JsMap.values m = m.*1.
Proof.
  unfold JsMap.values. induction 1 as [|kv m Hkv Hm IH]; [done|].
  rewrite !fmap_cons. by rewrite Hkv, IH.
Qed.

Lemma updateReputations_scores (p : ConsensusProposal) (acc : bool) (st : State) :
  VotingSpec.well_formed p →
  let st' := updateReputations p acc st in
  let winners := (if acc then supporters p else rejectors p).*1 in
  let losers := (if acc then rejectors p else supporters p).*1 in
  (∀ v, v ∈ winners → v ≠ proposer p →
     VotingSpec.scoreOf st' v = VotingSpec.clamp (VotingSpec.scoreOf st v + Fin 5)%num)
  ∧ (∀ v, v ∈ losers →
       VotingSpec.scoreOf st' v
       = VotingSpec.clamp (VotingSpec.scoreOf st v + Fin (-2))%num)
  ∧ (acc = true →
       VotingSpec.scoreOf st' (proposer p)
       = VotingSpec.clamp
           (VotingSpec.clamp (VotingSpec.scoreOf st (proposer p) + Fin 5) + Fin 10)%num)
  ∧ (∀ v, v ∉ winners → v ∉ losers →
       VotingSpec.scoreOf st' v = VotingSpec.scoreOf st v).
Proof.
  intros (Hkeys & Hnd & Hprop) st' winners losers.
  apply Forall_app in Hkeys as [Hks Hkr].
  rewrite fmap_app in Hnd. apply NoDup_app in Hnd as (Hnds & Hdisj & Hndr).
  pose proof (voters_keys _ Hks) as Hvs. pose proof (voters_keys _ Hkr) as Hvr.
  assert (Hpr : proposer p ∉ (rejectors p).*1) by (by apply Hdisj).
  unfold st', winners, losers, updateReputations. destruct acc.
  - repeat split.
    + intros v Hv Hne. rewrite scoreOf_adjust_ne by done.
      rewrite scoreOf_adjustAll_other by (rewrite Hvr; by apply Hdisj).
      apply scoreOf_adjustAll; by rewrite Hvs.
    + intros v Hv. assert (v ∉ (supporters p).*1) as Hvn.
      { intros Hs. by apply (Hdisj v). }
      rewrite scoreOf_adjust_ne by (intros <-; contradiction).
      rewrite scoreOf_adjustAll by (by rewrite Hvr).
      by rewrite scoreOf_adjustAll_other by (by rewrite Hvs).
    + intros _. rewrite scoreOf_adjust.
      rewrite scoreOf_adjustAll_other by (by rewrite Hvr).
      by rewrite scoreOf_adjustAll by (by rewrite Hvs).
    + intros v Hw Hl. rewrite scoreOf_adjust_ne by (intros <-; contradiction).
      rewrite scoreOf_adjustAll_other by (by rewrite Hvr).
      by rewrite scoreOf_adjustAll_other by (by rewrite Hvs).
  - repeat split.
    + intros v Hv Hne. assert (v ∉ (supporters p).*1) as Hvn.
      { intros Hs. by apply (Hdisj v). }
      rewrite scoreOf_adjustAll_other by (by rewrite Hvs).
      apply scoreOf_adjustAll; by rewrite Hvr.
    + intros v Hv.
      rewrite scoreOf_adjustAll by (by rewrite Hvs).
      rewrite scoreOf_adjustAll_other by (rewrite Hvr; by apply Hdisj). done.
    + done.
    + intros v Hw Hl.
      rewrite scoreOf_adjustAll_other by (by rewrite Hvs).
      by rewrite scoreOf_adjustAll_other by (by rewrite Hvr).
Qed.

Lemma evaluateProposal_pending (pid : string) (p : ConsensusProposal) (st : State) :
  proposals st !! pid = Some p → status p = pending →
  let acc := r_accepted (calculateConsensus (config st) p) in
  let p' := set_status (if acc then accepted else rejected) p in
  evaluateProposal pid st
  = updateReputations p' acc
      (emit (consensusReached pid (taskId p) acc
               (supportPercentage (calculateConsensus (config st) p))
               (totalVotes (calculateConsensus (config st) p))
               (if acc then Some (solution p) else None))
         (set_proposals (<[pid := p']> (proposals st)) st)).
Proof.
  intros Hp Hs. unfold evaluateProposal. rewrite Hp, Hs. done.
Qed.


End Finalize.

(** C5. When a pending proposal is finalized, every voter on the winning
    side other than the proposer of an accepted proposal gets +5, every
    voter on the losing side gets -2, and the proposer of an accepted
    proposal gets +5 as a supporter and then +10, each result clamped to
    [0, 200]; nobody else's score changes.  In the scenario with supporters
    of weights 100 and 100 and a rejector of weight 50 the proposal is
    accepted, the supporter ends at 105, the proposer at 115 and the
    rejector at 48. *)
Theorem C5_reputation_update (pid : string)
    (p : ConsensusEngine.ConsensusProposal) (st : ConsensusEngine.State) :
  (ConsensusEngine.proposals st !! pid = Some p →
   ConsensusEngine.status p = ConsensusEngine.pending →
   VotingSpec.well_formed p →
   let acc :=
     ConsensusEngine.r_accepted
       (ConsensusEngine.calculateConsensus (ConsensusEngine.config st) p) in
   let st' := ConsensusEngine.evaluateProposal pid st in
   let winners :=
     (if acc then ConsensusEngine.supporters p
      else ConsensusEngine.rejectors p).*1 in
   let losers :=
     (if acc then ConsensusEngine.rejectors p
      else ConsensusEngine.supporters p).*1 in
   (∀ v, v ∈ winners → v ≠ ConsensusEngine.proposer p →
      VotingSpec.scoreOf st' v
      = VotingSpec.clamp (VotingSpec.scoreOf st v + Fin 5)%num)
   ∧ (∀ v, v ∈ losers →
        VotingSpec.scoreOf st' v
        = VotingSpec.clamp (VotingSpec.scoreOf st v + Fin (-2))%num)
   ∧ (acc = true →
        VotingSpec.scoreOf st' (ConsensusEngine.proposer p)
        = VotingSpec.clamp
            (VotingSpec.clamp
               (VotingSpec.scoreOf st (ConsensusEngine.proposer p) + Fin 5)
             + Fin 10)%num)
   ∧ (∀ v, v ∉ winners → v ∉ losers →
        VotingSpec.scoreOf st' v = VotingSpec.scoreOf st v)
   ∧ (∀ v, v ∈ winners ∨ v ∈ losers →
        VotingSpec.in_range (VotingSpec.scoreOf st v) →
        VotingSpec.in_range (VotingSpec.scoreOf st' v)))
  ∧ (∃ p0 p1,
       ConsensusEngine.proposals VotingScenario.voted !! "p1" = Some p0
       ∧ ConsensusEngine.weight <$> JsMap.values (ConsensusEngine.supporters p0)
         = [Fin 100; Fin 100]
       ∧ ConsensusEngine.weight <$> JsMap.values (ConsensusEngine.rejectors p0)
         = [Fin 50]
       ∧ ConsensusEngine.proposer p0 = "P"
       ∧ (ConsensusEngine.supporters p0).*1 = ["P"; "S"]
       ∧ (ConsensusEngine.rejectors p0).*1 = ["R"]
       ∧ ConsensusEngine.proposals VotingScenario.finalized !! "p1" = Some p1
       ∧ ConsensusEngine.status p1 = ConsensusEngine.accepted
       ∧ VotingSpec.scoreOf VotingScenario.voted "S" = Fin 100
       ∧ VotingSpec.scoreOf VotingScenario.finalized "S" = Fin 105
       ∧ VotingSpec.scoreOf VotingScenario.voted "P" = Fin 100
       ∧ VotingSpec.scoreOf VotingScenario.finalized "P" = Fin 115
       ∧ VotingSpec.scoreOf VotingScenario.voted "R" = Fin 50
       ∧ VotingSpec.scoreOf VotingScenario.finalized "R" = Fin 48).
Proof.
  split.
  - intros Hp Hs Hwf acc st' winners losers.
    pose proof (evaluateProposal_pending pid p st Hp Hs) as Hev.
    cbn zeta in Hev. fold acc in Hev.
    set (p' := ConsensusEngine.set_status _ p) in Hev.
    set (st2 := ConsensusEngine.emit _ _) in Hev.
    assert (Hwf' : VotingSpec.well_formed p') by done.
    destruct (updateReputations_scores p' acc st2 Hwf') as (Hw & Hl & Hpr & Ho).
    fold st' in Hev. rewrite <- Hev in Hw, Hl, Hpr, Ho.
    unfold p' in Hw, Hl, Hpr, Ho.
    cbn [ConsensusEngine.supporters ConsensusEngine.rejectors
         ConsensusEngine.proposer ConsensusEngine.set_status] in Hw, Hl, Hpr, Ho.
    assert (Hsame : ∀ v, VotingSpec.scoreOf st2 v = VotingSpec.scoreOf st v) by done.
    assert (Hbound : ∀ x d, VotingSpec.in_range x →
              VotingSpec.in_range (VotingSpec.clamp (x + Fin d)%num)).
    { intros x d Hx. by apply clamp_in_range, in_range_add_defined. }
    split; [|split; [|split; [|split]]].
    + intros v Hv Hne. rewrite <- Hsame. by apply Hw.
    + intros v Hv. rewrite <- Hsame. by apply Hl.
    + intros Hacc. rewrite <- Hsame. by apply Hpr.
    + intros v Hv1 Hv2. rewrite <- Hsame. by apply Ho.
    + intros v Hv Hr.
      destruct (decide (acc = true ∧ v = ConsensusEngine.proposer p))
        as [[Hacc ->]|Hnot].
      * rewrite Hpr, Hsame by done. by apply Hbound, Hbound.
      * destruct Hv as [Hv|Hv].
        -- destruct (decide (v = ConsensusEngine.proposer p)) as [->|Hne].
           ++ destruct acc eqn:Hacc; [by destruct Hnot|].
              destruct Hwf as (_ & Hnd & Hprop).
              rewrite fmap_app in Hnd. apply NoDup_app in Hnd as (_ & Hdisj & _).
              by destruct (Hdisj _ Hprop).
           ++ rewrite Hw, Hsame by done. by apply Hbound.
        -- rewrite Hl, Hsame by done. by apply Hbound.
  - eexists _, _. repeat split; reflexivity.
Qed.

Lemma C5_reputation_update_witness :
  VotingSpec.scoreOf
    (ConsensusEngine.evaluateProposal "p1" VotingScenario.voted) "R"
  = VotingSpec.clamp (VotingSpec.scoreOf VotingScenario.voted "R" + Fin (-2))%num.
Proof.
  eapply (proj1 (C5_reputation_update "p1" _ VotingScenario.voted)).
  - reflexivity.
  - reflexivity.
  - split; [|split].
    + repeat constructor.
    + apply (bool_decide_unpack _). vm_compute. exact I.
    + apply (bool_decide_unpack _). vm_compute. exact I.
  - apply (bool_decide_unpack _). vm_compute. exact I.
Defined.




Section EarlyTermination.

Import ConsensusEngine.






End EarlyTermination.



Example scenario_early_termination :
  ∃ p p',
    ConsensusEngine.proposals VotingScenario.strongVoted !! "p1" = Some p
    ∧ ConsensusEngine.status p = ConsensusEngine.pending
    ∧ ConsensusEngine.proposals
        (ConsensusEngine.voteOnProposal (Fin 40) true "p1" "D" true None
           VotingScenario.strongVoted).2 !! "p1" = Some p'
    ∧ ConsensusEngine.status p' = ConsensusEngine.accepted
    ∧ VotingSpec.worstCaseSupportRatio (Fin 10) (Fin 100) p' ≡ Fin (1000 # 1500).
Proof. eexists _, _. repeat split; reflexivity. Qed.




(** * The proposals the voting engine builds are well formed *)

Section WellFormed.

Import ConsensusEngine.

Lemma JsMap_set_fresh {V} (m : JsMap.t V) (k : string) (v : V) :
  k ∉ m.*1 → JsMap.set m k v = m ++ [(k, v)].
Proof.
  induction m as [|[k' v'] m IH]; intros Hk; simpl; [done|].
  rewrite fmap_cons, not_elem_of_cons in Hk. destruct Hk as [Hne Hk].
  rewrite bool_decide_eq_false_2 by (simpl in Hne; congruence).
  by rewrite IH.
Qed.

Lemma has_false {V} (m : JsMap.t V) (k : string) :
  JsMap.has m k = false ↔ k ∉ m.*1.
Proof. unfold JsMap.has. apply bool_decide_eq_false. Qed.

Lemma set_status_well_formed (s : Status) (p : ConsensusProposal) :
  VotingSpec.well_formed p → VotingSpec.well_formed (set_status s p).
Proof. done. Qed.

Lemma recordVote_well_formed (p : ConsensusProposal) (vote : Vote) (support : bool) :
  VotingSpec.well_formed p →
  JsMap.has (supporters p) (voter vote) || JsMap.has (rejectors p) (voter vote) = false →
  VotingSpec.well_formed
    (if support
     then set_supporters (JsMap.set (supporters p) (voter vote) vote) p
     else set_rejectors (JsMap.set (rejectors p) (voter vote) vote) p).
Proof.
  intros (Hkeys & Hnd & Hprop) Hnew.
  apply orb_false_iff in Hnew as [Hs%has_false Hr%has_false].
  apply Forall_app in Hkeys as [Hks Hkr].
  rewrite fmap_app in Hnd. apply NoDup_app in Hnd as (Hnds & Hdisj & Hndr).
  destruct support; unfold VotingSpec.well_formed; simpl;
    rewrite JsMap_set_fresh by done.
  - split; [|split].
    + rewrite !Forall_app. repeat split; try done. by constructor.
    + rewrite !fmap_app. simpl. apply NoDup_app. split; [|split; [|done]].
      * apply NoDup_app. split; [done|]. split; [|apply NoDup_singleton].
        intros x Hx ->%list_elem_of_singleton. done.
      * intros x [Hx| ->%list_elem_of_singleton]%elem_of_app; [by apply Hdisj|done].
    + rewrite fmap_app. apply elem_of_app. by left.
  - split; [|split; [|done]].
    + rewrite !Forall_app. repeat split; try done. by constructor.
    + rewrite !fmap_app. simpl. apply NoDup_app. split; [done|]. split.
      * intros x Hx [Hx'| ->%list_elem_of_singleton]%elem_of_app;
          [by apply (Hdisj x)|done].
      * apply NoDup_app. split; [done|]. split; [|apply NoDup_singleton].
        intros x Hx ->%list_elem_of_singleton. done.
Qed.

Lemma insert_well_formed (pid : string) (p : ConsensusProposal) (st : State) :
  VotingSpec.proposals_well_formed st → VotingSpec.well_formed p →
  ∀ pid' p',
    <[pid := p]> (proposals st) !! pid' = Some p' → VotingSpec.well_formed p'.
Proof.
  intros Hst Hp pid' p'. destruct (decide (pid = pid')) as [<-|Hne].
  - rewrite lookup_insert_eq. by intros [= <-].
  - rewrite lookup_insert_ne by done. apply Hst.
Qed.

Lemma new_proposal_well_formed (p : ConsensusProposal) (v : Vote) :
  supporters p = [(proposer p, v)] → rejectors p = [] → voter v = proposer p →
  VotingSpec.well_formed p.
Proof.
  intros Hs Hr Hv. unfold VotingSpec.well_formed. rewrite Hs, Hr; simpl.
  split; [|split].
  - by repeat constructor.
  - apply NoDup_singleton.
  - by apply list_elem_of_singleton.
Qed.

Lemma proposeSolution_well_formed (pid : string) (clock : nat → num)
    (sent : bool) (tid sol who : string) (conf : num) (st : State) :
  VotingSpec.proposals_well_formed st →
  VotingSpec.proposals_well_formed
    (proposeSolution pid clock sent tid sol who conf st).2.
Proof.
  intros Hst. unfold proposeSolution.
  destruct sent; cbn [negb snd]; intros pid' p'; simpl;
    apply insert_well_formed; try done;
    by eapply new_proposal_well_formed.
Qed.

Lemma handleRemoteProposal_well_formed (now : num) (pd : ProposalData) (st : State) :
  VotingSpec.proposals_well_formed st →
  VotingSpec.proposals_well_formed (handleRemoteProposal now pd st).
Proof.
  intros Hst. unfold handleRemoteProposal.
  destruct (proposals st !! pd_id pd); [done|].
  intros pid' p'; simpl. apply insert_well_formed; [done|].
  by eapply new_proposal_well_formed.
Qed.

Lemma updateReputations_well_formed (p : ConsensusProposal) (acc : bool) (st : State) :
  VotingSpec.proposals_well_formed st →
  VotingSpec.proposals_well_formed (updateReputations p acc st).
Proof.
  intros Hst pid' p'. rewrite (proj1 (updateReputations_frame p acc st)).
  apply Hst.
Qed.

Lemma evaluateProposal_well_formed (pid : string) (st : State) :
  VotingSpec.proposals_well_formed st →
  VotingSpec.proposals_well_formed (evaluateProposal pid st).
Proof.
  intros Hst. unfold evaluateProposal.
  destruct (proposals st !! pid) as [p|] eqn:Hp; [|done].
  destruct (negb _); [done|].
  apply updateReputations_well_formed. intros pid' p'; simpl.
  apply insert_well_formed; [done|].
  by apply set_status_well_formed, (Hst pid).
Qed.

Lemma checkEarlyConsensus_well_formed (pid : string) (st : State) :
  VotingSpec.proposals_well_formed st →
  VotingSpec.proposals_well_formed (checkEarlyConsensus pid st).
Proof.
  intros Hst. unfold checkEarlyConsensus.
  destruct (proposals st !! pid) as [p|]; [|done].
  destruct (negb _); [done|].
  destruct (Num.ge _ _); [|done].
  by apply evaluateProposal_well_formed.
Qed.

Lemma recordVote_state_well_formed (pid : string) (p : ConsensusProposal)
    (vote : Vote) (support : bool) (st : State) :
  VotingSpec.proposals_well_formed st →
  proposals st !! pid = Some p →
  JsMap.has (supporters p) (voter vote) || JsMap.has (rejectors p) (voter vote) = false →
  VotingSpec.proposals_well_formed (recordVote pid p vote support st).
Proof.
  intros Hst Hp Hnew pid' p'. unfold recordVote; simpl.
  apply insert_well_formed; [done|].
  apply recordVote_well_formed; [by apply (Hst pid)|done].
Qed.

Lemma voteOnProposal_well_formed (now : num) (sent : bool) (pid who : string)
    (support : bool) (why : option string) (st : State) :
  VotingSpec.proposals_well_formed st →
  VotingSpec.proposals_well_formed
    (voteOnProposal now sent pid who support why st).2.
Proof.
  intros Hst. unfold voteOnProposal.
  destruct (proposals st !! pid) as [p|] eqn:Hp; [|done].
  destruct (negb _); [done|].
  destruct (Num.gt _ _); [done|].
  destruct (_ || _) eqn:Hnew; [done|].
  destruct sent; cbn [negb snd].
  - intros pid' p'. simpl.
    by apply checkEarlyConsensus_well_formed, recordVote_state_well_formed.
  - by apply recordVote_state_well_formed.
Qed.

Lemma handleRemoteVote_well_formed (now : num) (pid : string) (vd : VoteData)
    (st : State) :
  VotingSpec.proposals_well_formed st →
  VotingSpec.proposals_well_formed (handleRemoteVote now pid vd st).
Proof.
  intros Hst. unfold handleRemoteVote.
  destruct (proposals st !! pid) as [p|] eqn:Hp; [|done].
  destruct (negb _); [done|].
  destruct (_ || _) eqn:Hnew; [done|].
  intros pid' p'. simpl.
  by apply checkEarlyConsensus_well_formed, recordVote_state_well_formed.
Qed.

(** Every operation of the engine keeps the proposals well formed, from
    the empty engine on. *)
Lemma engine_keeps_well_formed :
  (∀ cfg, VotingSpec.proposals_well_formed (initial cfg))
  ∧ (∀ st data, VotingSpec.proposals_well_formed st →
       VotingSpec.proposals_well_formed (loadReputations data st))
  ∧ (∀ st pid clock sent tid sol who conf,
       VotingSpec.proposals_well_formed st →
       VotingSpec.proposals_well_formed
         (proposeSolution pid clock sent tid sol who conf st).2)
  ∧ (∀ st now pd, VotingSpec.proposals_well_formed st →
       VotingSpec.proposals_well_formed (handleRemoteProposal now pd st))
  ∧ (∀ st now sent pid who support why,
       VotingSpec.proposals_well_formed st →
       VotingSpec.proposals_well_formed
         (voteOnProposal now sent pid who support why st).2)
  ∧ (∀ st now pid vd, VotingSpec.proposals_well_formed st →
       VotingSpec.proposals_well_formed (handleRemoteVote now pid vd st))
  ∧ (∀ st pid, VotingSpec.proposals_well_formed st →
       VotingSpec.proposals_well_formed (evaluateProposal pid st)).
Proof.
  split; [|split; [|split; [|split; [|split; [|split]]]]].
  - intros cfg pid p H. simpl in H. by rewrite lookup_empty in H.
  - intros st data Hst. exact Hst.
  - intros st pid clock sent tid sol who conf.
    apply proposeSolution_well_formed.
  - intros st now pd. apply handleRemoteProposal_well_formed.
  - intros st now sent pid who support why. apply voteOnProposal_well_formed.
  - intros st now pid vd. apply handleRemoteVote_well_formed.
  - intros st pid. apply evaluateProposal_well_formed.
Qed.

End WellFormed.
